(** * ecowitt_local: the sensor and battery catalogs of [const.py]

    A shallow embedding of [custom_components/ecowitt_local/const.py]:
    the two channel generators, the literal tables [SENSOR_TYPES] and
    [BATTERY_SENSORS], and the sequence of [update] calls that the module
    runs when it is imported.

    Python values are modelled as follows.
    - [str] is [string]; the source is UTF-8, so a non-ASCII character such
      as the degree sign is the sequence of its UTF-8 bytes.  The only
      character tests of the code ([endswith("f")], ["_ch" in ...], the last
      character dropped after [endswith("f")] succeeded) are on ASCII
      characters, for which bytes and code points agree.
    - [int] is [Z]; [range(1, n + 1)] is [seqZ 1 n].
    - a [dict] with string keys is a [gmap string _]; a sensor definition is a
      dict from field names to strings, as in the source.
    - an exception is [None] in the option monad; where [str.format] is a
      parameter (module [AnyFormat]) an exception is a value of a type [E]
      and a result has the type [E + _]. *)

From Stdlib Require Import ZArith String Ascii DecimalString DecimalZ.
From stdpp Require Import gmap strings list fin_maps.

Open Scope Z_scope.

(** ** Python strings *)

Module Py.

(** [str(i)] and the [{i}] of an f-string, for an [int]. *)
Definition str (i : Z) : string := NilZero.string_of_int (Z.to_int i).

(** [s.endswith(suffix)]. *)
Definition endswith (s suffix : string) : bool :=
  let n := String.length s in
  let m := String.length suffix in
  (m <=? n)%nat && String.eqb (substring (n - m) m s) suffix.

(** [needle in s]: [needle] occurs in [s] at some position. *)
Fixpoint contains (needle s : string) : bool :=
  String.prefix needle s ||
  match s with
  | EmptyString => false
  | String _ s' => contains needle s'
  end.

(** [s[:-1]]: all but the last character (the empty string stays empty). *)
Definition drop_last (s : string) : string :=
  substring 0 (String.length s - 1) s.

(** [tmpl.format(ch=i)] for a replacement value already turned into text,
    on the templates that use braces for the plain field and the escapes
    only.  The replacement field [{ch}] becomes the text and the escapes
    [{{] and [}}] become one brace.  Every other use of a brace is outside
    this definition, which gives [None] for it whether [str.format] raises
    there (another field name, a brace left alone) or returns a text (a
    format specification, a conversion, an attribute of the channel).  The
    templates of the module use none of them; what is stated for every
    template takes [str.format] as a parameter (module [AnyFormat]). *)
Fixpoint format_with (tmpl : string) (ch : string) : option string :=
  match tmpl with
  | EmptyString => Some EmptyString
  | String "{" (String "{" rest) => String "{" <$> format_with rest ch
  | String "{" (String "c" (String "h" (String "}" rest))) =>
      String.append ch <$> format_with rest ch
  | String "{" _ => None
  | String "}" (String "}" rest) => String "}" <$> format_with rest ch
  | String "}" _ => None
  | String c rest => String c <$> format_with rest ch
  end.

Definition format (tmpl : string) (ch : Z) : option string :=
  format_with tmpl (str ch).

(** A dict display [{k1: v1, k2: v2, ...}]: the pairs are stored from left
    to right, a later pair replacing an earlier one with the same key. *)
Definition mkdict {V} (l : list (string * V)) : gmap string V :=
  foldl (λ d kv, <[kv.1 := kv.2]> d) ∅ l.

(** [d.update(e)]: the entries of [e] replace those of [d]. *)
Definition update {V} (d e : gmap string V) : gmap string V := e ∪ d.

End Py.

Import Py.

(** ** The generators *)

(** The key that one iteration of the loop of [_generate_channel_sensors]
    computes (lines 66 to 78 of the source), branch for branch. *)
Definition channel_key (base_key : string) (i : Z) : string :=
  let key :=
    if negb (endswith base_key "f") then base_key +:+ str i
    else drop_last base_key +:+ str i +:+ "f" in
  if contains "_ch" base_key then base_key +:+ str i
  else if String.eqb base_key "humidity" then "humidity" +:+ str i
  else if String.eqb base_key "soilmoisture" then "soilmoisture" +:+ str i
  else if String.eqb base_key "leafwetness_ch" then "leafwetness_ch" +:+ str i
  else key.

(** One iteration of the loop: [sensors[key] = {**sensor_def, "name": name}]. *)
Definition channel_sensor_step (base_key name_template : string)
    (sensor_def : gmap string string)
    (sensors : option (gmap string (gmap string string))) (i : Z)
    : option (gmap string (gmap string string)) :=
  sensors ← sensors;
  name ← format name_template i;
  Some (<[channel_key base_key i := <["name" := name]> sensor_def]> sensors).

Definition _generate_channel_sensors (base_key name_template : string)
    (sensor_def : gmap string string) (max_channels : Z)
    : option (gmap string (gmap string string)) :=
  foldl (channel_sensor_step base_key name_template sensor_def)
        (Some ∅) (seqZ 1 max_channels).

(** One iteration of the loop of [_generate_battery_sensors]. *)
Definition battery_sensor_step (base_key name_template sensor_key_template : string)
    (sensors : option (gmap string (gmap string string))) (i : Z)
    : option (gmap string (gmap string string)) :=
  sensors ← sensors;
  name ← format name_template i;
  sensor_key ← format sensor_key_template i;
  Some (<[base_key +:+ str i :=
            mkdict [("name", name); ("sensor_key", sensor_key)]]> sensors).

Definition _generate_battery_sensors
    (base_key name_template sensor_key_template : string) (max_channels : Z)
    : option (gmap string (gmap string string)) :=
  foldl (battery_sensor_step base_key name_template sensor_key_template)
        (Some ∅) (seqZ 1 max_channels).

(** ** The literal tables *)

(** The dict display bound to [SENSOR_TYPES] (lines 86 to 388), as the list
    of its [key: value] pairs in the order of the source. *)
Definition SENSOR_TYPES_items : list (string * gmap string string) :=
  [
    ("tempinf", mkdict [("name", "Indoor Temperature"); ("unit", "°C"); ("device_class", "temperature")]);
    ("tempf", mkdict [("name", "Outdoor Temperature"); ("unit", "°F"); ("device_class", "temperature")]);
    ("3", mkdict [("name", "Feels Like Temperature"); ("unit", "°C"); ("device_class", "temperature")]);
    ("5", mkdict [("name", "Vapor Pressure Deficit"); ("unit", "kPa"); ("device_class", "pressure")]);
    ("humidityin", mkdict [("name", "Indoor Humidity"); ("unit", "%"); ("device_class", "humidity")]);
    ("humidity", mkdict [("name", "Outdoor Humidity"); ("unit", "%"); ("device_class", "humidity")]);
    ("baromrelin", mkdict [("name", "Relative Pressure"); ("unit", "hPa"); ("device_class", "atmospheric_pressure")]);
    ("baromabsin", mkdict [("name", "Absolute Pressure"); ("unit", "hPa"); ("device_class", "atmospheric_pressure")]);
    ("windspeedmph", mkdict [("name", "Wind Speed"); ("unit", "mph"); ("device_class", "wind_speed")]);
    ("windspdmph_avg10m", mkdict [("name", "Wind Speed 10min Avg"); ("unit", "mph"); ("device_class", "wind_speed")]);
    ("windgustmph", mkdict [("name", "Wind Gust"); ("unit", "mph"); ("device_class", "wind_speed")]);
    ("maxdailygust", mkdict [("name", "Max Daily Gust"); ("unit", "mph"); ("device_class", "wind_speed")]);
    ("winddir", mkdict [("name", "Wind Direction"); ("unit", "°"); ("icon", "mdi:compass")]);
    ("winddir_avg10m", mkdict [("name", "Wind Direction 10min Avg"); ("unit", "°"); ("icon", "mdi:compass")]);
    ("rainratein", mkdict [("name", "Rain Rate"); ("unit", "in/hr"); ("device_class", "precipitation_intensity"); ("state_class", "measurement")]);
    ("eventrainin", mkdict [("name", "Event Rain"); ("unit", "in"); ("device_class", "precipitation"); ("state_class", "total")]);
    ("hourlyrainin", mkdict [("name", "Hourly Rain"); ("unit", "in"); ("device_class", "precipitation"); ("state_class", "total_increasing")]);
    ("dailyrainin", mkdict [("name", "Daily Rain"); ("unit", "in"); ("device_class", "precipitation"); ("state_class", "total_increasing")]);
    ("weeklyrainin", mkdict [("name", "Weekly Rain"); ("unit", "in"); ("device_class", "precipitation"); ("state_class", "total_increasing")]);
    ("monthlyrainin", mkdict [("name", "Monthly Rain"); ("unit", "in"); ("device_class", "precipitation"); ("state_class", "total_increasing")]);
    ("yearlyrainin", mkdict [("name", "Yearly Rain"); ("unit", "in"); ("device_class", "precipitation"); ("state_class", "total_increasing")]);
    ("totalrainin", mkdict [("name", "Total Rain"); ("unit", "in"); ("device_class", "precipitation"); ("state_class", "total_increasing")]);
    ("solarradiation", mkdict [("name", "Solar Radiation"); ("unit", "W/m²"); ("device_class", "irradiance")]);
    ("uv", mkdict [("name", "UV Index"); ("unit", "UV Index"); ("icon", "mdi:weather-sunny-alert")]);
    ("lightning_num", mkdict [("name", "Lightning Strikes"); ("unit", "strikes"); ("icon", "mdi:flash")]);
    ("lightning_time", mkdict [("name", "Last Lightning"); ("device_class", "timestamp")]);
    ("lightning", mkdict [("name", "Lightning Distance"); ("unit", "km"); ("device_class", "distance")]);
    ("lightning_mi", mkdict [("name", "Lightning Distance"); ("unit", "mi"); ("device_class", "distance")]);
    ("tf_co2", mkdict [("name", "CO2 Sensor Temperature"); ("unit", "°F"); ("device_class", "temperature")]);
    ("tf_co2c", mkdict [("name", "CO2 Sensor Temperature"); ("unit", "°C"); ("device_class", "temperature")]);
    ("humi_co2", mkdict [("name", "CO2 Sensor Humidity"); ("unit", "%"); ("device_class", "humidity")]);
    ("pm25_co2", mkdict [("name", "PM2.5"); ("unit", "µg/m³"); ("device_class", "pm25")]);
    ("pm25_24h_co2", mkdict [("name", "PM2.5 24h Avg"); ("unit", "µg/m³"); ("device_class", "pm25")]);
    ("pm10_co2", mkdict [("name", "PM10"); ("unit", "µg/m³"); ("device_class", "pm10")]);
    ("pm10_24h_co2", mkdict [("name", "PM10 24h Avg"); ("unit", "µg/m³"); ("device_class", "pm10")]);
    ("co2", mkdict [("name", "CO2"); ("unit", "ppm"); ("device_class", "carbon_dioxide")]);
    ("co2_24h", mkdict [("name", "CO2 24h Avg"); ("unit", "ppm"); ("device_class", "carbon_dioxide")]);
    ("0x02", mkdict [("name", "Outdoor Temperature"); ("unit", "°C"); ("device_class", "temperature")]);
    ("0x03", mkdict [("name", "Dewpoint Temperature"); ("unit", "°C"); ("device_class", "temperature")]);
    ("0x07", mkdict [("name", "Outdoor Humidity"); ("unit", "%"); ("device_class", "humidity")]);
    ("0x0B", mkdict [("name", "Wind Speed"); ("unit", "m/s"); ("device_class", "wind_speed")]);
    ("0x0C", mkdict [("name", "Wind Gust"); ("unit", "m/s"); ("device_class", "wind_speed")]);
    ("0x19", mkdict [("name", "Max Daily Gust"); ("unit", "m/s"); ("device_class", "wind_speed")]);
    ("0x0A", mkdict [("name", "Wind Direction"); ("unit", "°"); ("icon", "mdi:compass")]);
    ("0x6D", mkdict [("name", "Wind Direction Avg"); ("unit", "°"); ("icon", "mdi:compass")]);
    ("0x15", mkdict [("name", "Solar Radiation"); ("unit", "W/m²"); ("device_class", "irradiance")]);
    ("0x17", mkdict [("name", "UV Index"); ("unit", "UV Index"); ("icon", "mdi:weather-sunny-alert")]);
    ("0x0D", mkdict [("name", "Rain Event"); ("unit", "mm"); ("device_class", "precipitation"); ("state_class", "total")]);
    ("0x0E", mkdict [("name", "Rain Rate"); ("unit", "mm/Hr"); ("device_class", "precipitation_intensity"); ("state_class", "measurement")]);
    ("0x7C", mkdict [("name", "Daily Rain"); ("unit", "mm"); ("device_class", "precipitation"); ("state_class", "total_increasing")]);
    ("0x10", mkdict [("name", "Weekly Rain"); ("unit", "mm"); ("device_class", "precipitation"); ("state_class", "total_increasing")]);
    ("0x11", mkdict [("name", "Monthly Rain"); ("unit", "mm"); ("device_class", "precipitation"); ("state_class", "total_increasing")]);
    ("0x12", mkdict [("name", "Yearly Rain"); ("unit", "mm"); ("device_class", "precipitation"); ("state_class", "total_increasing")]);
    ("0x13", mkdict [("name", "Total Rain"); ("unit", "mm"); ("device_class", "precipitation"); ("state_class", "total_increasing")])
  ].

(** The dict display bound to [BATTERY_SENSORS] (lines 466 to 508). *)
Definition BATTERY_SENSORS_items : list (string * gmap string string) :=
  [
    ("wh57batt", mkdict [("name", "Lightning Sensor Battery"); ("sensor_key", "lightning")]);
    ("wh40batt", mkdict [("name", "Rain Sensor Battery"); ("sensor_key", "rainratein")]);
    ("wh68batt", mkdict [("name", "Weather Station Battery"); ("sensor_key", "tempf")]);
    ("wh25batt", mkdict [("name", "Indoor Station Battery"); ("sensor_key", "tempinf")]);
    ("wh26batt", mkdict [("name", "Indoor Sensor Battery"); ("sensor_key", "tempinf")]);
    ("co2_batt", mkdict [("name", "CO2 Combo Sensor Battery"); ("sensor_key", "co2")]);
    ("wh69batt", mkdict [("name", "WH69 Weather Station Battery"); ("sensor_key", "0x02")]);
    ("ws90batt", mkdict [("name", "WS90 Weather Station Battery"); ("sensor_key", "0x02")]);
    ("wh90batt", mkdict [("name", "WH90 Weather Station Battery"); ("sensor_key", "0x02")]);
    ("wh77batt", mkdict [("name", "WH77 Multi-Sensor Station Battery"); ("sensor_key", "0x02")])
  ].

(** ** The module body *)

(** The two module-level dicts that the body of the module builds. *)
Record module_state : Type := ModuleState {
  sensor_types : gmap string (gmap string string);
  battery_sensors : gmap string (gmap string string)
}.

#[global] Instance module_state_eq_dec : EqDecision module_state.
Proof. solve_decision. Defined.

(** The statements that follow the two dict displays: every one of them is
    either [SENSOR_TYPES.update(_generate_channel_sensors(...))] or
    [BATTERY_SENSORS.update(_generate_battery_sensors(...))], and differs
    from the others by the arguments of the call only. *)
Inductive stmt : Type :=
| SENSOR_TYPES_update
    (base_key name_template : string) (sensor_def : gmap string string)
    (max_channels : Z)
| BATTERY_SENSORS_update
    (base_key name_template sensor_key_template : string) (max_channels : Z).

Definition exec_stmt (s : stmt) (st : module_state) : option module_state :=
  match s with
  | SENSOR_TYPES_update base_key name_template sensor_def max_channels =>
      generated ← _generate_channel_sensors
                    base_key name_template sensor_def max_channels;
      Some {| sensor_types := update (sensor_types st) generated;
              battery_sensors := battery_sensors st |}
  | BATTERY_SENSORS_update base_key name_template sensor_key_template max_channels =>
      generated ← _generate_battery_sensors
                    base_key name_template sensor_key_template max_channels;
      Some {| sensor_types := sensor_types st;
              battery_sensors := update (battery_sensors st) generated |}
  end.

Fixpoint exec (body : list stmt) (st : module_state) : option module_state :=
  match body with
  | [] => Some st
  | s :: body' => st' ← exec_stmt s st; exec body' st'
  end.

(** The two dict displays.  The source binds [BATTERY_SENSORS] after the last
    update of [SENSOR_TYPES]; no statement reads one dict while it writes the
    other, so both are bound here before the first update. *)
Definition module_literals : module_state :=
  {| sensor_types := mkdict SENSOR_TYPES_items;
     battery_sensors := mkdict BATTERY_SENSORS_items |}.

(** The update statements of the module, in the order of the source
    (lines 391 to 436, then lines 511 to 528). *)
Definition module_body : list stmt :=
  [ SENSOR_TYPES_update "tempf" "Temperature CH{ch}"
      (mkdict [("unit", "°C"); ("device_class", "temperature")]) 8;
    SENSOR_TYPES_update "humidity" "Humidity CH{ch}"
      (mkdict [("unit", "%"); ("device_class", "humidity")]) 8;
    SENSOR_TYPES_update "soilmoisture" "Soil Moisture CH{ch}"
      (mkdict [("unit", "%"); ("device_class", "moisture")]) 16;
    SENSOR_TYPES_update "pm25_ch" "PM2.5 CH{ch}"
      (mkdict [("unit", "µg/m³"); ("device_class", "pm25")]) 4;
    SENSOR_TYPES_update "pm25_avg_24h_ch" "PM2.5 24h Avg CH{ch}"
      (mkdict [("unit", "µg/m³"); ("device_class", "pm25")]) 4;
    SENSOR_TYPES_update "leak_ch" "Leak Sensor CH{ch}"
      (mkdict [("device_class", "moisture")]) 4;
    SENSOR_TYPES_update "leafwetness_ch" "Leaf Wetness CH{ch}"
      (mkdict [("unit", "%"); ("device_class", "moisture")]) 8;
    SENSOR_TYPES_update "tf_ch" "Soil Temperature CH{ch}"
      (mkdict [("unit", "°F"); ("device_class", "temperature")]) 8;
    SENSOR_TYPES_update "tf_ch" "Soil Temperature CH{ch}"
      (mkdict [("unit", "°C"); ("device_class", "temperature")]) 8;
    SENSOR_TYPES_update "dewpoint" "Dewpoint CH{ch}"
      (mkdict [("unit", "°F"); ("device_class", "temperature")]) 8;
    BATTERY_SENSORS_update "soilbatt" "Soil Moisture CH{ch} Battery"
      "soilmoisture{ch}" 16;
    BATTERY_SENSORS_update "batt" "Temperature/Humidity CH{ch} Battery"
      "temp{ch}f" 8;
    BATTERY_SENSORS_update "pm25batt" "PM2.5 CH{ch} Battery" "pm25_ch{ch}" 4;
    BATTERY_SENSORS_update "leakbatt" "Leak Sensor CH{ch} Battery"
      "leak_ch{ch}" 4;
    BATTERY_SENSORS_update "tf_batt" "Soil Temperature CH{ch} Battery"
      "tf_ch{ch}" 8;
    BATTERY_SENSORS_update "leaf_batt" "Leaf Wetness CH{ch} Battery"
      "leafwetness_ch{ch}" 8 ].

(** The state after the first [n] update statements. *)
Definition state_after (n : nat) : option module_state :=
  exec (take n module_body) module_literals.

(** Importing the module: the displays, then every update. *)
Definition import_module : option module_state :=
  exec module_body module_literals.

(** The two catalogs as the rest of the integration sees them. *)
Definition SENSOR_TYPES : gmap string (gmap string string) :=
  from_option sensor_types ∅ import_module.

Definition BATTERY_SENSORS : gmap string (gmap string string) :=
  from_option battery_sensors ∅ import_module.

(** ** Reading the catalogs *)

(** [catalog[key][field]] when both are present. *)
Definition field (catalog : gmap string (gmap string string))
    (key fld : string) : option string :=
  catalog !! key ≫= (.!! fld).

(** Modelled from the spec: [lookupSensor] and [lookupBattery], the two
    read-only lookup surfaces of section 6 of the specification, are called
    by the entity-creation layer, which is not part of [const.py].  Following
    the specification, a lookup returns the descriptor stored under the key or
    the absent result, and it is given the module state and hands it back, so
    that what it does to the catalogs can be stated.  The outer option is the
    exception channel of this file: [None] would be a raised error. *)
Definition lookupSensor (key : string) (st : module_state)
    : option (option (gmap string string) * module_state) :=
  Some (sensor_types st !! key, st).

(** Modelled from the spec: [lookupBattery], the second lookup surface of
    section 6, reads the battery catalog in the same way. *)
Definition lookupBattery (key : string) (st : module_state)
    : option (option (gmap string string) * module_state) :=
  Some (battery_sensors st !! key, st).

(** ** The key rule, restated *)

(** [channel_key] with the three [elif base_key == ...] branches of lines 73
    to 78 deleted. *)
Definition channel_key_two_tests (base_key : string) (i : Z) : string :=
  let key :=
    if negb (endswith base_key "f") then base_key +:+ str i
    else drop_last base_key +:+ str i +:+ "f" in
  if contains "_ch" base_key then base_key +:+ str i else key.

(** The two-case rule in the words of the specification: a base key that
    ends with the letter f and has no ["_ch"] in it loses its last character
    and gets the channel and an ["f"]; any other base key gets the channel
    appended. *)
Definition two_case_key (base_key : string) (i : Z) : string :=
  if endswith base_key "f" && negb (contains "_ch" base_key)
  then drop_last base_key +:+ str i +:+ "f"
  else base_key +:+ str i.

(** ** The sequence of writes *)

(** The keys that a statement stores into [SENSOR_TYPES], in the order of its
    loop, and the keys that it stores into [BATTERY_SENSORS]. *)
Definition written_sensor_keys (s : stmt) : list string :=
  match s with
  | SENSOR_TYPES_update base_key _ _ max_channels =>
      channel_key base_key <$> seqZ 1 max_channels
  | BATTERY_SENSORS_update _ _ _ _ => []
  end.

Definition written_battery_keys (s : stmt) : list string :=
  match s with
  | SENSOR_TYPES_update _ _ _ _ => []
  | BATTERY_SENSORS_update base_key _ _ max_channels =>
      (λ i, base_key +:+ str i) <$> seqZ 1 max_channels
  end.

(** Every store into a catalog while the module is imported, in order, with
    where it comes from: [None] for a pair of the dict display, [Some j] for
    the statement at position [j] of [module_body] (counted from 0). *)
Definition writes_of (items : list (string * gmap string string))
    (written : stmt → list string) (body : list stmt)
    : list (option nat * string) :=
  ((λ kv, (None, kv.1)) <$> items) ++
  concat (imap (λ j s, (λ k, (Some j, k)) <$> written s) body).

Definition sensor_writes : list (option nat * string) :=
  writes_of SENSOR_TYPES_items written_sensor_keys module_body.

Definition battery_writes : list (option nat * string) :=
  writes_of BATTERY_SENSORS_items written_battery_keys module_body.

(** The collisions of a sequence of writes: every pair of an earlier and a
    later store under the same key, as (earlier source, later source, key). *)
Fixpoint collisions {Src : Type} (l : list (Src * string))
    : list (Src * Src * string) :=
  match l with
  | [] => []
  | w :: l' =>
      ((λ w', (w.1, w'.1, w.2)) <$> filter (λ w', w'.2 = w.2) l')
      ++ collisions l'
  end.

(** ** The rain keys of the display *)

(** The rain entries of lines 166 to 213 and 346 to 387, grouped by the
    window their names give: the rate, the rain of the current event, the
    windows that restart with each hour, day, week, month or year, and the
    running total.  The hex-ID family has no hourly entry. *)
Definition rain_rate_keys : list string := ["rainratein"; "0x0E"].
Definition rain_event_keys : list string := ["eventrainin"; "0x0D"].
Definition rain_period_keys : list string :=
  ["hourlyrainin"; "dailyrainin"; "weeklyrainin"; "monthlyrainin";
   "yearlyrainin"; "0x7C"; "0x10"; "0x11"; "0x12"].
Definition rain_total_keys : list string := ["totalrainin"; "0x13"].

(** Every key of [keys] has the state class [cls] in [catalog]. *)
Definition state_class_is (catalog : gmap string (gmap string string))
    (cls : string) (keys : list string) : Prop :=
  Forall (λ k, field catalog k "state_class" = Some cls) keys.

(** The keys of the pairs of a dict display whose device class is one of the
    two rain classes. *)
Definition rain_keys_of (items : list (string * gmap string string))
    : list string :=
  (filter (λ kv, kv.2 !! "device_class" = Some "precipitation" ∨
                 kv.2 !! "device_class" = Some "precipitation_intensity")
          items).*1.

(** The state classes of the rain entries in the words of the
    specification: the rate is a measurement, every window that restarts
    (event, hourly, daily, weekly, monthly, yearly) is a total, and the
    running total is a total that only increases. *)
Definition rain_windows_all_total
    (catalog : gmap string (gmap string string)) : Prop :=
  state_class_is catalog "measurement" rain_rate_keys ∧
  state_class_is catalog "total" (rain_event_keys ++ rain_period_keys) ∧
  state_class_is catalog "total_increasing" rain_total_keys.

(** ** A loop that fills a dict *)

(** Both generators are the same loop: start from the empty dict and, for
    each channel, compute a key and a value and store them; a failure while
    computing the value ends the loop with that failure. *)
Section fill.
Context {V : Type} (key : Z → string) (value : Z → option V).

Definition fill_step (sensors : option (gmap string V)) (i : Z)
    : option (gmap string V) :=
  sensors ← sensors; v ← value i; Some (<[key i := v]> sensors).

Definition fill (channels : list Z) : option (gmap string V) :=
  foldl fill_step (Some ∅) channels.
End fill.

Definition channel_sensor_value (name_template : string)
    (sensor_def : gmap string string) (i : Z) : option (gmap string string) :=
  name ← format name_template i; Some (<["name" := name]> sensor_def).

Definition battery_sensor_value (name_template sensor_key_template : string)
    (i : Z) : option (gmap string string) :=
  name ← format name_template i;
  sensor_key ← format sensor_key_template i;
  Some (mkdict [("name", name); ("sensor_key", sensor_key)]).

(** ** The other tables of the module *)

(** The set display bound to [GATEWAY_SENSORS] (lines 37 to 44). *)
Definition GATEWAY_SENSORS : gset string :=
  {[ "tempinf"; "humidityin"; "baromabsin"; "baromrelin"; "3"; "5" ]}.

(** The dict display bound to [SYSTEM_SENSORS] (lines 531 to 542). *)
Definition SYSTEM_SENSORS : gmap string (gmap string string) :=
  mkdict
    [ ("runtime", mkdict [("name", "Gateway Uptime"); ("unit", "days");
                          ("device_class", "duration")]);
      ("heap", mkdict [("name", "Gateway Heap Memory"); ("unit", "KB");
                       ("device_class", "data_size")]) ].

(** The list bound to [SIGNAL_SENSORS] (lines 545 to 547): the prefixes of
    the keys of signal-strength sensors. *)
Definition SIGNAL_SENSORS : list string := ["rssi_"].

(** ** The generators and the module body over any formatter *)

(** [str.format] is a builtin of the interpreter, not code of the module.
    Here it is a parameter: any function from a template and a channel to
    the text that [template.format(ch=i)] returns or to the exception that it
    raises, an exception being a value of some type [E].  The two generators
    and the update statements are the code of the module once more, line for
    line, over this parameter; an exception ends the loop, the call and the
    run, and is their result. *)
Module AnyFormat.
Section formatter.
Context {E : Type} (fmt : string → Z → E + string).

(** One iteration of the loop of lines 65 to 81. *)
Definition channel_sensor_step (base_key name_template : string)
    (sensor_def : gmap string string)
    (sensors : E + gmap string (gmap string string)) (i : Z)
    : E + gmap string (gmap string string) :=
  match sensors with
  | inl e => inl e
  | inr sensors =>
      match fmt name_template i with
      | inl e => inl e
      | inr name =>
          inr (<[channel_key base_key i := <["name" := name]> sensor_def]>
                 sensors)
      end
  end.

Definition _generate_channel_sensors (base_key name_template : string)
    (sensor_def : gmap string string) (max_channels : Z)
    : E + gmap string (gmap string string) :=
  foldl (channel_sensor_step base_key name_template sensor_def)
        (inr ∅) (seqZ 1 max_channels).

(** One iteration of the loop of lines 457 to 461: the name is formatted
    before the sensor key. *)
Definition battery_sensor_step
    (base_key name_template sensor_key_template : string)
    (sensors : E + gmap string (gmap string string)) (i : Z)
    : E + gmap string (gmap string string) :=
  match sensors with
  | inl e => inl e
  | inr sensors =>
      match fmt name_template i with
      | inl e => inl e
      | inr name =>
          match fmt sensor_key_template i with
          | inl e => inl e
          | inr sensor_key =>
              inr (<[base_key +:+ str i :=
                       mkdict [("name", name); ("sensor_key", sensor_key)]]>
                     sensors)
          end
      end
  end.

Definition _generate_battery_sensors
    (base_key name_template sensor_key_template : string) (max_channels : Z)
    : E + gmap string (gmap string string) :=
  foldl (battery_sensor_step base_key name_template sensor_key_template)
        (inr ∅) (seqZ 1 max_channels).

Definition exec_stmt (s : stmt) (st : module_state) : E + module_state :=
  match s with
  | SENSOR_TYPES_update base_key name_template sensor_def max_channels =>
      match _generate_channel_sensors
              base_key name_template sensor_def max_channels with
      | inl e => inl e
      | inr generated =>
          inr {| sensor_types := update (sensor_types st) generated;
                 battery_sensors := battery_sensors st |}
      end
  | BATTERY_SENSORS_update base_key name_template sensor_key_template
      max_channels =>
      match _generate_battery_sensors
              base_key name_template sensor_key_template max_channels with
      | inl e => inl e
      | inr generated =>
          inr {| sensor_types := sensor_types st;
                 battery_sensors := update (battery_sensors st) generated |}
      end
  end.

Fixpoint exec (body : list stmt) (st : module_state) : E + module_state :=
  match body with
  | [] => inr st
  | s :: body' =>
      match exec_stmt s st with
      | inl e => inl e
      | inr st' => exec body' st'
      end
  end.

Definition import_module : E + module_state :=
  exec module_body module_literals.

End formatter.
End AnyFormat.

(** The formatter of this file's [format], with one exception value for
    everything that [format] does not turn into text. *)
Definition plain_format (tmpl : string) (i : Z) : unit + string :=
  match format tmpl i with
  | Some text => inr text
  | None => inl ()
  end.

(** The result of a call or of a run when it ended normally. *)
Definition returned {E A : Type} (r : E + A) : option A :=
  match r with
  | inl _ => None
  | inr a => Some a
  end.

(** The filling loop with exceptions as values. *)
Section fill_or_raise.
Context {E V : Type} (key : Z → string) (value : Z → E + V).

Definition fill_or_raise_step (sensors : E + gmap string V) (i : Z)
    : E + gmap string V :=
  match sensors with
  | inl e => inl e
  | inr sensors =>
      match value i with
      | inl e => inl e
      | inr v => inr (<[key i := v]> sensors)
      end
  end.

Definition fill_or_raise (channels : list Z) : E + gmap string V :=
  foldl fill_or_raise_step (inr ∅) channels.
End fill_or_raise.

Definition channel_sensor_value_with {E : Type} (fmt : string → Z → E + string)
    (name_template : string) (sensor_def : gmap string string) (i : Z)
    : E + gmap string string :=
  match fmt name_template i with
  | inl e => inl e
  | inr name => inr (<["name" := name]> sensor_def)
  end.

Definition battery_sensor_value_with {E : Type}
    (fmt : string → Z → E + string)
    (name_template sensor_key_template : string) (i : Z)
    : E + gmap string string :=
  match fmt name_template i with
  | inl e => inl e
  | inr name =>
      match fmt sensor_key_template i with
      | inl e => inl e
      | inr sensor_key =>
          inr (mkdict [("name", name); ("sensor_key", sensor_key)])
      end
  end.

(** * Facts *)

(** ** Strings and decimal numerals *)

Lemma append_cons c a b : String c a +:+ b = String c (a +:+ b).
Proof. reflexivity. Qed.

Lemma length_append a b :
  String.length (a +:+ b) = (String.length a + String.length b)%nat.
Proof.
  induction a as [|c a IH]; [done|].
  rewrite append_cons. cbn. by rewrite IH.
Qed.

Lemma append_inj_r a b s : a +:+ s = b +:+ s → a = b.
Proof.
  revert b. induction a as [|c a IH]; intros [|d b] H.
  - done.
  - apply (f_equal String.length) in H. rewrite !length_append in H.
    cbn in H. lia.
  - apply (f_equal String.length) in H. rewrite !length_append in H.
    cbn in H. lia.
  - rewrite !append_cons in H. injection H as -> H. f_equal. auto.
Qed.

Lemma substring_all s : substring 0 (String.length s) s = s.
Proof. induction s as [|c s IH]; [done|]. cbn. by rewrite IH. Qed.

Lemma substring_append_skip p s m :
  substring (String.length p) m (p +:+ s) = substring 0 m s.
Proof. induction p as [|c p IH]; [done|]. rewrite append_cons. cbn. exact IH. Qed.

Lemma substring_append_take p s :
  substring 0 (String.length p) (p +:+ s) = p.
Proof.
  induction p as [|c p IH]; [by destruct s|].
  rewrite append_cons. cbn. by rewrite IH.
Qed.

Lemma substring_split s k :
  (k ≤ String.length s)%nat →
  s = substring 0 k s +:+ substring k (String.length s - k) s.
Proof.
  revert k. induction s as [|c s IH]; intros [|k] Hk; cbn in *; try lia.
  - done.
  - by rewrite substring_all.
  - rewrite append_cons. f_equal. apply IH. lia.
Qed.

(** [endswith] holds exactly of the strings that are some text followed by
    the suffix. *)
Lemma endswith_spec s suffix :
  endswith s suffix = true ↔ ∃ p, s = p +:+ suffix.
Proof.
  unfold endswith. rewrite andb_true_iff, Nat.leb_le, String.eqb_eq. split.
  - intros [Hle Hsub].
    exists (substring 0 (String.length s - String.length suffix) s).
    pose proof (substring_split s (String.length s - String.length suffix))
      as H.
    replace (String.length s - (String.length s - String.length suffix))%nat
      with (String.length suffix) in H by lia.
    rewrite Hsub in H. apply H. lia.
  - intros [p ->]. rewrite length_append. split; [lia|].
    replace (String.length p + String.length suffix - String.length suffix)%nat
      with (String.length p) by lia.
    rewrite substring_append_skip. apply substring_all.
Qed.

Lemma prefix_spec needle s :
  String.prefix needle s = true ↔ ∃ b, s = needle +:+ b.
Proof.
  revert s. induction needle as [|c needle IH]; intros s.
  - split; [by exists s|by destruct s].
  - destruct s as [|d s]; cbn.
    + split; [done|]. by intros [b Hb].
    + destruct (ascii_dec c d) as [->|Hne].
      * rewrite IH. split; intros [b Hb]; exists b.
        -- rewrite append_cons. by rewrite <- Hb.
        -- rewrite append_cons in Hb. by injection Hb.
      * split; [done|]. intros [b Hb]. rewrite append_cons in Hb.
        injection Hb as Hb _. congruence.
Qed.

(** [contains] holds exactly of the strings that have the needle somewhere
    inside. *)
Lemma contains_spec needle s :
  contains needle s = true ↔ ∃ a b, s = a +:+ needle +:+ b.
Proof.
  induction s as [|c s IH]; cbn [contains]; rewrite orb_true_iff, prefix_spec.
  - split.
    + intros [[b Hb]|H]; [|done]. by exists "", b.
    + intros (a & b & H). left. destruct a; [by exists b|].
      by rewrite append_cons in H.
  - rewrite IH. split.
    + intros [[b Hb]|(a & b & ->)]; [by exists "", b|].
      by exists (String c a), b.
    + intros ([|d a] & b & H); [left; by exists b|].
      right. rewrite append_cons in H. injection H as -> ->. by exists a, b.
Qed.

Lemma drop_last_spec p c : drop_last (p +:+ String c "") = p.
Proof.
  unfold drop_last. rewrite length_append. cbn.
  replace (String.length p + 1 - 1)%nat with (String.length p) by lia.
  apply substring_append_take.
Qed.
Example str_examples : str 16 = "16" ∧ str 0 = "0" ∧ str (-5) = "-5".
Proof. by repeat split. Qed.

Example endswith_examples :
  endswith "tempf" "f" = true ∧ endswith "tf_ch" "f" = false ∧
  endswith "" "f" = false.
Proof. by repeat split. Qed.

Example contains_examples :
  contains "_ch" "leafwetness_ch" = true ∧ contains "_ch" "tempf" = false ∧
  contains "_ch" "pm25_avg_24h_ch" = true.
Proof. by repeat split. Qed.

Example format_examples :
  format "Soil Moisture CH{ch} Battery" 12 = Some "Soil Moisture CH12 Battery" ∧
  format "temp{ch}f" 3 = Some "temp3f" ∧
  format "{{ch}}" 3 = Some "{ch}" ∧
  format "CH{}" 3 = None.
Proof. by repeat split. Qed.

Lemma to_int_nonnil z :
  Z.to_int z ≠ Decimal.Pos Decimal.Nil ∧ Z.to_int z ≠ Decimal.Neg Decimal.Nil.
Proof.
  destruct z as [|p|p]; cbn; split; try discriminate.
  - intros [= H]. by apply DecimalPos.Unsigned.to_uint_nonnil in H.
  - intros [= H]. by apply DecimalPos.Unsigned.to_uint_nonnil in H.
Qed.

(** Two integers with the same decimal text are equal. *)
Lemma str_inj i j : str i = str j → i = j.
Proof.
  unfold str. intros H. apply to_int_inj.
  destruct (to_int_nonnil i) as [Hi1 Hi2], (to_int_nonnil j) as [Hj1 Hj2].
  assert (Some (Z.to_int i) = Some (Z.to_int j)) as [= ->]; [|done].
  by rewrite <- (NilZero.isi _ Hi1 Hi2), <- (NilZero.isi _ Hj1 Hj2), H.
Qed.

(** ** The key of a channel *)

Lemma channel_key_drops_branches base_key i :
  channel_key base_key i = channel_key_two_tests base_key i.
Proof.
  unfold channel_key, channel_key_two_tests.
  destruct (contains "_ch" base_key) eqn:Hch; [reflexivity|].
  destruct (String.eqb_spec base_key "humidity") as [->|_]; [reflexivity|].
  destruct (String.eqb_spec base_key "soilmoisture") as [->|_]; [reflexivity|].
  destruct (String.eqb_spec base_key "leafwetness_ch") as [->|_]; [|reflexivity].
  discriminate Hch.
Qed.

Lemma two_tests_two_cases base_key i :
  channel_key_two_tests base_key i = two_case_key base_key i.
Proof.
  unfold channel_key_two_tests, two_case_key.
  by destruct (contains "_ch" base_key), (endswith base_key "f").
Qed.

Lemma channel_key_inj base_key i j :
  channel_key base_key i = channel_key base_key j → i = j.
Proof.
  rewrite !channel_key_drops_branches. unfold channel_key_two_tests.
  destruct (contains "_ch" base_key), (endswith base_key "f"); cbn;
    intros H; apply String.app_inj in H; try apply append_inj_r in H;
    by apply str_inj.
Qed.

Lemma battery_key_inj base_key i j :
  base_key +:+ str i = base_key +:+ str j → i = j.
Proof. intros H. apply String.app_inj in H. by apply str_inj. Qed.

(** ** The filling loop *)

Lemma foldl_ext_eq {A B} (f g : A → B → A) (l : list B) (a : A) :
  (∀ a x, f a x = g a x) → foldl f a l = foldl g a l.
Proof.
  intros Hfg. revert a. induction l as [|x l IH]; intros a; [done|].
  cbn. by rewrite Hfg, IH.
Qed.

Section fill_facts.
Context {V : Type} (key : Z → string) (value : Z → option V).
Hypothesis key_inj : ∀ i j, key i = key j → i = j.

Lemma fill_step_failed l : foldl (fill_step key value) None l = None.
Proof. by induction l. Qed.

Lemma fill_step_lookup l acc m :
  NoDup l →
  foldl (fill_step key value) (Some acc) l = Some m →
  ∀ k v, m !! k = Some v ↔
    (∃ i, i ∈ l ∧ k = key i ∧ value i = Some v) ∨
    ((∀ i, i ∈ l → k ≠ key i) ∧ acc !! k = Some v).
Proof.
  revert acc. induction l as [|x l IH]; intros acc Hnd Hm k v.
  - injection Hm as <-. split; [intros H; right; split; [|done]|].
    + intros i Hi. by apply elem_of_nil in Hi.
    + intros [(i & Hi & _)|[_ H]]; [by apply elem_of_nil in Hi|done].
  - apply NoDup_cons in Hnd as [Hx Hnd]. cbn in Hm.
    destruct (value x) as [vx|] eqn:Hvx; [|by rewrite fill_step_failed in Hm].
    rewrite (IH _ Hnd Hm k v). clear IH Hm. split.
    + intros [(i & Hi & -> & Hv)|[Hl Hk]].
      * left. exists i. by rewrite elem_of_cons; auto.
      * destruct (decide (k = key x)) as [->|Hne].
        -- rewrite lookup_insert_eq in Hk. injection Hk as <-.
           left. exists x. by rewrite elem_of_cons; auto.
        -- rewrite lookup_insert_ne in Hk by done.
           right. split; [|done]. intros i [->|Hi]%elem_of_cons; auto.
    + intros [(i & [->|Hi]%elem_of_cons & -> & Hv)|[Hl Hk]].
      * right. split.
        -- intros i Hi Heq. apply key_inj in Heq as <-. done.
        -- rewrite lookup_insert_eq. congruence.
      * left. by exists i.
      * right. split.
        -- intros i Hi. apply Hl. by apply elem_of_cons; auto.
        -- rewrite lookup_insert_ne; [done|].
           intros Heq. apply (Hl x); [by apply elem_of_cons; auto|done].
Qed.

(** What the loop leaves in the dict: under the key of each channel the
    value of that channel, and nothing else. *)
Lemma fill_lookup l m :
  NoDup l → fill key value l = Some m →
  ∀ k v, m !! k = Some v ↔ ∃ i, i ∈ l ∧ k = key i ∧ value i = Some v.
Proof.
  intros Hnd Hm k v. rewrite (fill_step_lookup l ∅ m Hnd Hm k v).
  split; [|by left]. intros [H|[_ H]]; [done|]. by rewrite lookup_empty in H.
Qed.

(** The loop ends normally when every value can be computed. *)
Lemma fill_is_Some l :
  (∀ i, i ∈ l → is_Some (value i)) → is_Some (fill key value l).
Proof.
  unfold fill. generalize (∅ : gmap string V).
  induction l as [|x l IH]; intros acc Hv; [by eexists|].
  destruct (Hv x) as [vx Hvx]; [by apply elem_of_cons; auto|].
  cbn. rewrite Hvx. cbn. apply IH. intros i Hi. apply Hv.
  by apply elem_of_cons; auto.
Qed.
End fill_facts.

Lemma generate_channel_sensors_fill base_key name_template sensor_def max_channels :
  _generate_channel_sensors base_key name_template sensor_def max_channels
  = fill (channel_key base_key) (channel_sensor_value name_template sensor_def)
         (seqZ 1 max_channels).
Proof.
  apply foldl_ext_eq. intros [acc|] i; [|done].
  unfold channel_sensor_step, fill_step, channel_sensor_value. cbn.
  by destruct (format name_template i).
Qed.

Lemma generate_battery_sensors_fill
    base_key name_template sensor_key_template max_channels :
  _generate_battery_sensors base_key name_template sensor_key_template max_channels
  = fill (λ i, base_key +:+ str i)
         (battery_sensor_value name_template sensor_key_template)
         (seqZ 1 max_channels).
Proof.
  apply foldl_ext_eq. intros [acc|] i; [|done].
  unfold battery_sensor_step, fill_step, battery_sensor_value. cbn.
  destruct (format name_template i); [|done]. cbn.
  by destruct (format sensor_key_template i).
Qed.

(** The dict returned by [_generate_channel_sensors]: for every channel of
    [1..max_channels] the key of the channel holds the sensor definition with
    the formatted name added, and there is no other key. *)
Lemma generate_channel_sensors_lookup
    base_key name_template sensor_def max_channels generated :
  _generate_channel_sensors base_key name_template sensor_def max_channels
    = Some generated →
  ∀ k e, generated !! k = Some e ↔
    ∃ i, 1 ≤ i ≤ max_channels ∧ k = channel_key base_key i ∧
         channel_sensor_value name_template sensor_def i = Some e.
Proof.
  rewrite generate_channel_sensors_fill. intros Hgen k e.
  rewrite (fill_lookup _ _ (channel_key_inj base_key) _ _
             (NoDup_seqZ 1 max_channels) Hgen k e).
  setoid_rewrite elem_of_seqZ.
  split; intros (i & Hi & H); exists i; (split; [lia|done]).
Qed.

Lemma generate_battery_sensors_lookup
    base_key name_template sensor_key_template max_channels generated :
  _generate_battery_sensors base_key name_template sensor_key_template
    max_channels = Some generated →
  ∀ k e, generated !! k = Some e ↔
    ∃ i, 1 ≤ i ≤ max_channels ∧ k = base_key +:+ str i ∧
         battery_sensor_value name_template sensor_key_template i = Some e.
Proof.
  rewrite generate_battery_sensors_fill. intros Hgen k e.
  rewrite (fill_lookup _ _ (battery_key_inj base_key) _ _
             (NoDup_seqZ 1 max_channels) Hgen k e).
  setoid_rewrite elem_of_seqZ.
  split; intros (i & Hi & H); exists i; (split; [lia|done]).
Qed.

Lemma fill_values_Some {V} (key : Z → string) (value : Z → option V) l m :
  fill key value l = Some m → ∀ i, i ∈ l → is_Some (value i).
Proof.
  unfold fill. generalize (∅ : gmap string V).
  induction l as [|x l IH]; intros acc Hm i Hi; [by apply elem_of_nil in Hi|].
  cbn in Hm. destruct (value x) as [vx|] eqn:Hvx; cbn in Hm;
    [|by rewrite fill_step_failed in Hm].
  apply elem_of_cons in Hi as [->|Hi]; [by rewrite Hvx|]. by eapply IH.
Qed.

(** ** Running the module body *)

(** The import ends normally, and the two catalogs are its result. *)
Lemma import_module_catalogs :
  import_module = Some {| sensor_types := SENSOR_TYPES;
                          battery_sensors := BATTERY_SENSORS |}.
Proof.
  unfold SENSOR_TYPES, BATTERY_SENSORS.
  assert (is_Some import_module) as [[s b] ->]; [|done].
  apply (bool_decide_unpack _). vm_compute. exact I.
Qed.

(** ** Proof by running the code over a channel range *)

Lemma channels_ind (P : Z → Prop) (n : Z) :
  Forall P (seqZ 1 n) → ∀ i, 1 ≤ i ≤ n → P i.
Proof. rewrite Forall_seqZ. intros H i Hi. apply H. lia. Qed.

(** Decide a closed, decidable statement by evaluating its decision
    procedure. *)
Ltac by_evaluation := apply (bool_decide_unpack _); vm_compute; exact I.

(** The same for a statement about every channel [i] of a range [1..n],
    with [Hi : 1 ≤ i ≤ n]. *)
Ltac by_channels i Hi :=
  revert i Hi; apply channels_ind; by_evaluation.

Ltac in_list H :=
  repeat (apply elem_of_cons in H as [->|H]); [..|by apply elem_of_nil in H].

(** ** Collisions *)

Lemma collisions_complete {Src} (l : list (Src * string)) p q w1 w2 :
  (p < q)%nat → l !! p = Some w1 → l !! q = Some w2 → w1.2 = w2.2 →
  (w1.1, w2.1, w1.2) ∈ collisions l.
Proof.
  revert p q. induction l as [|w l IH]; intros p q Hpq Hp Hq Hk; [done|].
  destruct q as [|q]; [lia|]. cbn in Hq. cbn [collisions].
  apply elem_of_app. destruct p as [|p].
  - injection Hp as ->. left. apply list_elem_of_fmap. exists w2.
    split; [done|]. apply list_elem_of_filter. split; [done|].
    by eapply list_elem_of_lookup_2.
  - right. apply (IH p q); [lia|done..].
Qed.

Lemma collisions_sound {Src} (l : list (Src * string)) s1 s2 k :
  (s1, s2, k) ∈ collisions l →
  ∃ p q, (p < q)%nat ∧ l !! p = Some (s1, k) ∧ l !! q = Some (s2, k).
Proof.
  induction l as [|w l IH]; [by intros ?%elem_of_nil|].
  cbn [collisions]. intros [H|H]%elem_of_app.
  - apply list_elem_of_fmap in H as ([s' k'] & [= -> -> ->] & H).
    apply list_elem_of_filter in H as [Hk [q Hq]%list_elem_of_lookup_1].
    cbn in Hk. subst k'. exists 0%nat, (S q). destruct w as [s k].
    split; [lia|done].
  - destruct (IH H) as (p & q & Hpq & Hp & Hq). exists (S p), (S q).
    split; [lia|done].
Qed.

(** From here on the catalogs are looked at through evaluation only. *)
Opaque SENSOR_TYPES BATTERY_SENSORS.

(** * The claims *)

(** Claim C1.  The statements at positions 7 and 8 of the module body are the
    two soil-temperature passes, with the same base key and name template and
    the units °F and °C.  For every channel [i] of [1..8], the key
    ["tf_ch{i}"] is absent before the first pass, holds the unit °F after
    it and the unit °C after the second pass; in the assembled catalog it
    holds the entry that the second pass generates, whose name is
    ["Soil Temperature CH{i}"], whose device class is temperature and whose
    unit is °C, not °F. *)
Theorem soil_temperature_celsius (i : Z) :
  1 ≤ i ≤ 8 →
  module_body !! 7%nat
    = Some (SENSOR_TYPES_update "tf_ch" "Soil Temperature CH{ch}"
              (mkdict [("unit", "°F"); ("device_class", "temperature")]) 8) ∧
  module_body !! 8%nat
    = Some (SENSOR_TYPES_update "tf_ch" "Soil Temperature CH{ch}"
              (mkdict [("unit", "°C"); ("device_class", "temperature")]) 8) ∧
  (λ st, sensor_types st !! ("tf_ch" +:+ str i)) <$> state_after 7
    = Some None ∧
  (λ st, field (sensor_types st) ("tf_ch" +:+ str i) "unit") <$> state_after 8
    = Some (Some "°F") ∧
  (λ st, field (sensor_types st) ("tf_ch" +:+ str i) "unit") <$> state_after 9
    = Some (Some "°C") ∧
  SENSOR_TYPES !! ("tf_ch" +:+ str i)
    = (_generate_channel_sensors "tf_ch" "Soil Temperature CH{ch}"
         (mkdict [("unit", "°C"); ("device_class", "temperature")]) 8
       ≫= (.!! ("tf_ch" +:+ str i))) ∧
  field SENSOR_TYPES ("tf_ch" +:+ str i) "name"
    = Some ("Soil Temperature CH" +:+ str i) ∧
  field SENSOR_TYPES ("tf_ch" +:+ str i) "device_class" = Some "temperature" ∧
  field SENSOR_TYPES ("tf_ch" +:+ str i) "unit" = Some "°C" ∧
  field SENSOR_TYPES ("tf_ch" +:+ str i) "unit" ≠ Some "°F".
Proof.
  intros Hi. do 2 (split; [reflexivity|]).
  by_channels i Hi.
Qed.

Lemma soil_temperature_celsius_witness :
  field SENSOR_TYPES ("tf_ch" +:+ str 2) "unit" = Some "°C".
Proof.
  apply (soil_temperature_celsius 2). lia.
Defined.

(** Claim C2.  Every entry of the assembled battery catalog has a
    [sensor_key], and that key is a key of the assembled sensor catalog. *)
Theorem battery_parent_present (key : string) (battery : gmap string string) :
  BATTERY_SENSORS !! key = Some battery →
  ∃ parent sensor,
    battery !! "sensor_key" = Some parent ∧
    SENSOR_TYPES !! parent = Some sensor.
Proof.
  revert key battery.
  assert (map_Forall
            (λ (_ : string) (b : gmap string string),
               is_Some (b !! "sensor_key" ≫= (SENSOR_TYPES !!.)))
            BATTERY_SENSORS) as H by by_evaluation.
  intros key battery Hb. destruct (H key battery Hb) as [sensor Hs].
  clear H Hb.
  destruct (battery !! "sensor_key") as [parent|]; [|discriminate Hs].
  exists parent, sensor. split; [reflexivity|exact Hs].
Qed.

Lemma battery_parent_present_witness :
  ∃ parent sensor,
    mkdict [("name", "Soil Moisture CH5 Battery");
            ("sensor_key", "soilmoisture5")] !! "sensor_key" = Some parent ∧
    SENSOR_TYPES !! parent = Some sensor.
Proof.
  apply (battery_parent_present "soilbatt5"). by_evaluation.
Defined.

(** Claim C3.  When [_generate_channel_sensors] returns a dict, then for
    every channel [i] of [1..max_channels] the dict holds, under the key of
    the channel, the sensor definition with the formatted name; and the key
    of the channel is: the base key without its last character, then [i],
    then ["f"], for a base key that ends with f and has no ["_ch"] in it
    (a base key [p] followed by f gives [p], [i], f; ["tempf"] gives
    ["temp{i}f"]); the base key followed by [i] for a base
    key with ["_ch"] in it (the five ["..._ch"] bases of the module); and
    the base key followed by [i] for ["humidity"], ["soilmoisture"] and
    ["dewpoint"]. *)
Theorem channel_key_by_family
    (base_key name_template : string) (sensor_def : gmap string string)
    (max_channels : Z) (generated : gmap string (gmap string string)) (i : Z) :
  _generate_channel_sensors base_key name_template sensor_def max_channels
    = Some generated →
  1 ≤ i ≤ max_channels →
  (∃ name, format name_template i = Some name ∧
     generated !! channel_key base_key i = Some (<["name" := name]> sensor_def)) ∧
  (endswith base_key "f" = true → contains "_ch" base_key = false →
     channel_key base_key i = drop_last base_key +:+ str i +:+ "f") ∧
  (∀ p, base_key = p +:+ "f" → contains "_ch" base_key = false →
     channel_key base_key i = p +:+ str i +:+ "f") ∧
  (base_key = "tempf" → channel_key base_key i = "temp" +:+ str i +:+ "f") ∧
  (contains "_ch" base_key = true → channel_key base_key i = base_key +:+ str i) ∧
  (base_key ∈ ["pm25_ch"; "pm25_avg_24h_ch"; "leak_ch"; "leafwetness_ch"; "tf_ch"] →
     contains "_ch" base_key = true ∧ channel_key base_key i = base_key +:+ str i) ∧
  (base_key ∈ ["humidity"; "soilmoisture"; "dewpoint"] →
     channel_key base_key i = base_key +:+ str i).
Proof.
  intros Hgen Hi. split; [|split; [|split; [|split; [|split; [|split]]]]].
  - assert (is_Some (channel_sensor_value name_template sensor_def i))
      as [e He].
    { rewrite generate_channel_sensors_fill in Hgen.
      apply (fill_values_Some _ _ _ _ Hgen). apply elem_of_seqZ. lia. }
    assert (generated !! channel_key base_key i = Some e) as Hk.
    { apply (generate_channel_sensors_lookup _ _ _ _ _ Hgen). by exists i. }
    unfold channel_sensor_value in He.
    destruct (format name_template i) as [name|]; [|done].
    injection He as <-. by exists name.
  - intros Hf Hch. rewrite channel_key_drops_branches.
    unfold channel_key_two_tests. by rewrite Hf, Hch.
  - intros p -> Hch. rewrite channel_key_drops_branches.
    unfold channel_key_two_tests. rewrite Hch.
    assert (endswith (p +:+ "f") "f" = true) as ->
      by (apply endswith_spec; by exists p).
    cbn. by rewrite drop_last_spec.
  - by intros ->.
  - intros Hch. rewrite channel_key_drops_branches.
    unfold channel_key_two_tests. by rewrite Hch.
  - intros H. in_list H; by split.
  - intros H. in_list H; reflexivity.
Qed.

Lemma channel_key_by_family_witness :
  (∃ name, format "Temperature CH{ch}" 1 = Some name ∧
     default ∅ (_generate_channel_sensors "tempf" "Temperature CH{ch}"
                  (mkdict [("unit", "°C"); ("device_class", "temperature")]) 8)
       !! channel_key "tempf" 1
     = Some (<["name" := name]>
               (mkdict [("unit", "°C"); ("device_class", "temperature")]))) ∧
  channel_key "tempf" 1 = "temp" +:+ str 1 +:+ "f".
Proof.
  pose proof (channel_key_by_family "tempf" "Temperature CH{ch}"
           (mkdict [("unit", "°C"); ("device_class", "temperature")]) 8
           (default ∅ (_generate_channel_sensors "tempf" "Temperature CH{ch}"
              (mkdict [("unit", "°C"); ("device_class", "temperature")]) 8))
           1) as H.
  destruct H as (H1 & _ & _ & H2 & _).
  - by_evaluation.
  - lia.
  - split; [exact H1|exact (H2 eq_refl)].
Defined.

(** Claim C4.  In the assembled catalogs every channel of every generated
    family is present under its key, and its name is the name template of
    the family with the channel number in the place of [{ch}]: the nine
    sensor families (the two soil-temperature passes share their keys and
    their name template) and the six battery families, each over its own
    channel count.  The key ["soilmoisture3"] holds the name
    ["Soil Moisture CH3"], the unit % and the device class moisture, and
    nothing else. *)
Theorem channel_families_complete (i : Z) :
  (1 ≤ i ≤ 8 → field SENSOR_TYPES ("temp" +:+ str i +:+ "f") "name"
                 = Some ("Temperature CH" +:+ str i)) ∧
  (1 ≤ i ≤ 8 → field SENSOR_TYPES ("humidity" +:+ str i) "name"
                 = Some ("Humidity CH" +:+ str i)) ∧
  (1 ≤ i ≤ 16 → field SENSOR_TYPES ("soilmoisture" +:+ str i) "name"
                  = Some ("Soil Moisture CH" +:+ str i)) ∧
  (1 ≤ i ≤ 4 → field SENSOR_TYPES ("pm25_ch" +:+ str i) "name"
                 = Some ("PM2.5 CH" +:+ str i)) ∧
  (1 ≤ i ≤ 4 → field SENSOR_TYPES ("pm25_avg_24h_ch" +:+ str i) "name"
                 = Some ("PM2.5 24h Avg CH" +:+ str i)) ∧
  (1 ≤ i ≤ 4 → field SENSOR_TYPES ("leak_ch" +:+ str i) "name"
                 = Some ("Leak Sensor CH" +:+ str i)) ∧
  (1 ≤ i ≤ 8 → field SENSOR_TYPES ("leafwetness_ch" +:+ str i) "name"
                 = Some ("Leaf Wetness CH" +:+ str i)) ∧
  (1 ≤ i ≤ 8 → field SENSOR_TYPES ("tf_ch" +:+ str i) "name"
                 = Some ("Soil Temperature CH" +:+ str i)) ∧
  (1 ≤ i ≤ 8 → field SENSOR_TYPES ("dewpoint" +:+ str i) "name"
                 = Some ("Dewpoint CH" +:+ str i)) ∧
  (1 ≤ i ≤ 16 → field BATTERY_SENSORS ("soilbatt" +:+ str i) "name"
                  = Some ("Soil Moisture CH" +:+ str i +:+ " Battery")) ∧
  (1 ≤ i ≤ 8 → field BATTERY_SENSORS ("batt" +:+ str i) "name"
                 = Some ("Temperature/Humidity CH" +:+ str i +:+ " Battery")) ∧
  (1 ≤ i ≤ 4 → field BATTERY_SENSORS ("pm25batt" +:+ str i) "name"
                 = Some ("PM2.5 CH" +:+ str i +:+ " Battery")) ∧
  (1 ≤ i ≤ 4 → field BATTERY_SENSORS ("leakbatt" +:+ str i) "name"
                 = Some ("Leak Sensor CH" +:+ str i +:+ " Battery")) ∧
  (1 ≤ i ≤ 8 → field BATTERY_SENSORS ("tf_batt" +:+ str i) "name"
                 = Some ("Soil Temperature CH" +:+ str i +:+ " Battery")) ∧
  (1 ≤ i ≤ 8 → field BATTERY_SENSORS ("leaf_batt" +:+ str i) "name"
                 = Some ("Leaf Wetness CH" +:+ str i +:+ " Battery")) ∧
  Forall
    (λ s, match s with
          | SENSOR_TYPES_update base_key name_template _ max_channels =>
              Forall (λ j, is_Some (format name_template j) ∧
                           field SENSOR_TYPES (channel_key base_key j) "name"
                           = format name_template j)
                     (seqZ 1 max_channels)
          | BATTERY_SENSORS_update base_key name_template _ max_channels =>
              Forall (λ j, is_Some (format name_template j) ∧
                           field BATTERY_SENSORS (base_key +:+ str j) "name"
                           = format name_template j)
                     (seqZ 1 max_channels)
          end)
    module_body ∧
  SENSOR_TYPES !! "soilmoisture3"
    = Some (mkdict [("name", "Soil Moisture CH3"); ("unit", "%");
                    ("device_class", "moisture")]).
Proof.
  repeat lazymatch goal with |- _ ∧ _ => split end;
    try (intros Hi; by_channels i Hi);
    [|by_evaluation].
  unfold module_body.
  repeat (apply Forall_cons; split; [by_evaluation|]).
  apply Forall_nil_2.
Qed.

Lemma channel_families_complete_witness :
  field SENSOR_TYPES ("soilmoisture" +:+ str 3) "name"
  = Some ("Soil Moisture CH" +:+ str 3).
Proof.
  apply (channel_families_complete 3). lia.
Defined.

(** Claim C5, as stated, fails: the hourly rain entry of the display is not
    a total but a total that only increases, so the rain entries do not have
    the state classes that the claim gives them, neither in the display nor
    in the assembled catalog. *)
Lemma rain_windows_not_all_total :
  field (mkdict SENSOR_TYPES_items) "hourlyrainin" "state_class"
    = Some "total_increasing" ∧
  "hourlyrainin" ∈ rain_event_keys ++ rain_period_keys ∧
  ¬ rain_windows_all_total (mkdict SENSOR_TYPES_items) ∧
  ¬ rain_windows_all_total SENSOR_TYPES.
Proof. unfold rain_windows_all_total, state_class_is. by_evaluation. Qed.

(** Claim C5, amended.  The four key lists are all the rain entries of the
    display.  The two rate keys are measurements; the two event keys
    (["eventrainin"], ["0x0D"]) are totals; the hourly, daily, weekly,
    monthly and yearly keys and the two total-rain keys are totals that only
    increase.  The assembled catalog has the same state classes. *)
Theorem rain_state_classes :
  list_to_set (rain_keys_of SENSOR_TYPES_items)
    =@{gset string} list_to_set (rain_rate_keys ++ rain_event_keys
                                 ++ rain_period_keys ++ rain_total_keys) ∧
  state_class_is (mkdict SENSOR_TYPES_items) "measurement" rain_rate_keys ∧
  state_class_is (mkdict SENSOR_TYPES_items) "total" rain_event_keys ∧
  state_class_is (mkdict SENSOR_TYPES_items) "total_increasing"
    (rain_period_keys ++ rain_total_keys) ∧
  state_class_is SENSOR_TYPES "measurement" rain_rate_keys ∧
  state_class_is SENSOR_TYPES "total" rain_event_keys ∧
  state_class_is SENSOR_TYPES "total_increasing"
    (rain_period_keys ++ rain_total_keys).
Proof. unfold state_class_is. by_evaluation. Qed.

(** Claim C6.  Of all the stores into [SENSOR_TYPES] while the module is
    imported, an earlier and a later one have the same key only when the
    earlier one is made by the statement at position 7 and the later one by
    the statement at position 8, the two soil-temperature passes, and the key
    is ["tf_ch{i}"] for a channel [i] of [1..8]; both passes do store each of
    these eight keys.  No two stores into [BATTERY_SENSORS] have the same
    key.  The keys stored are the keys of the assembled catalogs: 130 stores
    leave 122 sensor keys, 58 stores leave 58 battery keys. *)
Theorem only_soil_temperature_collides :
  (∀ p q w1 w2,
     (p < q)%nat →
     sensor_writes !! p = Some w1 → sensor_writes !! q = Some w2 →
     w1.2 = w2.2 →
     w1.1 = Some 7%nat ∧ w2.1 = Some 8%nat ∧
     ∃ i, 1 ≤ i ≤ 8 ∧ w1.2 = "tf_ch" +:+ str i) ∧
  (∀ i, 1 ≤ i ≤ 8 →
     (Some 7%nat, "tf_ch" +:+ str i) ∈ sensor_writes ∧
     (Some 8%nat, "tf_ch" +:+ str i) ∈ sensor_writes) ∧
  (∀ p q w1 w2,
     (p < q)%nat →
     battery_writes !! p = Some w1 → battery_writes !! q = Some w2 →
     w1.2 ≠ w2.2) ∧
  dom SENSOR_TYPES = list_to_set sensor_writes.*2 ∧
  dom BATTERY_SENSORS = list_to_set battery_writes.*2 ∧
  length sensor_writes = 130%nat ∧ size SENSOR_TYPES = 122%nat ∧
  length battery_writes = 58%nat ∧ size BATTERY_SENSORS = 58%nat.
Proof.
  split; [|split; [|split]].
  - intros p q w1 w2 Hpq Hp Hq Hk.
    pose proof (collisions_complete _ p q w1 w2 Hpq Hp Hq Hk) as Hin.
    assert (collisions sensor_writes
            = (λ i, (Some 7%nat, Some 8%nat, "tf_ch" +:+ str i)) <$> seqZ 1 8)
      as Hcol by by_evaluation.
    rewrite Hcol in Hin. clear Hcol Hp Hq.
    apply list_elem_of_fmap in Hin as (i & Heq & Hi%elem_of_seqZ).
    injection Heq as -> -> ->. split; [done|split; [done|]].
    exists i. split; [lia|done].
  - intros i Hi. by_channels i Hi.
  - intros p q w1 w2 Hpq Hp Hq Hk.
    pose proof (collisions_complete _ p q w1 w2 Hpq Hp Hq Hk) as Hin.
    assert (collisions battery_writes = []) as Hcol by by_evaluation.
    rewrite Hcol in Hin. by apply elem_of_nil in Hin.
  - by_evaluation.
Qed.

Lemma only_soil_temperature_collides_witness :
  Some 7%nat = Some 7%nat ∧ Some 8%nat = Some 8%nat ∧
  ∃ i, 1 ≤ i ≤ 8 ∧ "tf_ch1" = "tf_ch" +:+ str i.
Proof.
  apply (proj1 only_soil_temperature_collides 106%nat 114%nat
           (Some 7%nat, "tf_ch1") (Some 8%nat, "tf_ch1")).
  - lia.
  - vm_compute. reflexivity.
  - vm_compute. reflexivity.
  - reflexivity.
Defined.

(** Claim C8.  On the state that the import leaves, a lookup of a key that
    is not in the sensor catalog returns normally, with the absent result and
    the state it was given; the same holds for a battery lookup of a key that
    is not in the battery catalog.  The key ["unknown_key_xyz"] is in neither
    catalog. *)
Theorem lookup_unknown_key (key : string) :
  let st := {| sensor_types := SENSOR_TYPES;
               battery_sensors := BATTERY_SENSORS |} in
  import_module = Some st ∧
  (key ∉ dom SENSOR_TYPES → lookupSensor key st = Some (None, st)) ∧
  (key ∉ dom BATTERY_SENSORS → lookupBattery key st = Some (None, st)) ∧
  ("unknown_key_xyz" ∉ dom SENSOR_TYPES) ∧
  ("unknown_key_xyz" ∉ dom BATTERY_SENSORS).
Proof.
  cbv zeta. split; [exact import_module_catalogs|].
  split; [|split; [|by_evaluation]].
  - intros Hk%not_elem_of_dom. unfold lookupSensor. cbn. by rewrite Hk.
  - intros Hk%not_elem_of_dom. unfold lookupBattery. cbn. by rewrite Hk.
Qed.

Lemma lookup_unknown_key_witness :
  lookupSensor "unknown_key_xyz"
    {| sensor_types := SENSOR_TYPES; battery_sensors := BATTERY_SENSORS |}
  = Some (None, {| sensor_types := SENSOR_TYPES;
                   battery_sensors := BATTERY_SENSORS |}).
Proof.
  apply (proj1 (proj2 (lookup_unknown_key "unknown_key_xyz"))).
  by_evaluation.
Defined.

(** Claim C9.  No string is a key of both assembled catalogs: the two key
    sets have nothing in common, and every key is absent from the sensor
    catalog or absent from the battery catalog. *)
Theorem catalogs_disjoint (key : string) :
  dom SENSOR_TYPES ∩ dom BATTERY_SENSORS = ∅ ∧
  (SENSOR_TYPES !! key = None ∨ BATTERY_SENSORS !! key = None).
Proof.
  assert (dom SENSOR_TYPES ∩ dom BATTERY_SENSORS = ∅) as H by by_evaluation.
  split; [exact H|].
  destruct (SENSOR_TYPES !! key) as [s|] eqn:Hs; [|by left].
  destruct (BATTERY_SENSORS !! key) as [b|] eqn:Hb; [|by right].
  exfalso. apply (not_elem_of_empty (C:=gset string) key). rewrite <- H.
  apply elem_of_intersection. split; apply elem_of_dom; by eexists.
Qed.

(** Claim C10.  For every base key and every channel, the key that the loop
    of [_generate_channel_sensors] computes is the key of the two-case rule;
    it is also the key computed when the branches for ["humidity"],
    ["soilmoisture"] and ["leafwetness_ch"] are deleted from the code. *)
Theorem channel_key_two_cases (base_key : string) (i : Z) :
  channel_key base_key i = two_case_key base_key i ∧
  channel_key base_key i = channel_key_two_tests base_key i.
Proof.
  split; [|apply channel_key_drops_branches].
  rewrite channel_key_drops_branches. apply two_tests_two_cases.
Qed.

(** * Further properties of the generators and of the module body *)

(** ** More on the filling loop *)

Section fill_more.
Context {V : Type} (key : Z → string) (value : Z → option V).

Lemma fill_step_dom l acc m :
  foldl (fill_step key value) (Some acc) l = Some m →
  dom m = list_to_set (key <$> l) ∪ dom acc.
Proof.
  revert acc. induction l as [|x l IH]; intros acc Hm.
  - injection Hm as <-. cbn. by rewrite (left_id_L ∅ (∪)).
  - cbn in Hm. destruct (value x) as [vx|] eqn:Hvx; cbn in Hm;
      [|by rewrite fill_step_failed in Hm].
    rewrite (IH _ Hm), dom_insert_L. cbn.
    by rewrite (assoc_L (∪)), (comm_L (∪) _ {[key x]}).
Qed.

Lemma fill_dom l m :
  fill key value l = Some m → dom m = list_to_set (key <$> l).
Proof.
  intros Hm. by rewrite (fill_step_dom l ∅ m Hm), dom_empty_L, (right_id_L ∅ (∪)).
Qed.

Lemma fill_size l m :
  (∀ i j, key i = key j → i = j) → NoDup l →
  fill key value l = Some m → size m = length l.
Proof.
  intros Hinj Hnd Hm. rewrite <- size_dom, (fill_dom l m Hm).
  rewrite size_list_to_set; [by rewrite length_fmap|].
  apply NoDup_fmap_2; [|done]. intros i j. apply Hinj.
Qed.

Lemma fill_is_Some_iff l :
  is_Some (fill key value l) ↔ ∀ i, i ∈ l → is_Some (value i).
Proof.
  split; [intros [m Hm]; exact (fill_values_Some key value l m Hm)|].
  unfold fill. generalize (∅ : gmap string V).
  induction l as [|x l IH]; intros acc Hv; [by eexists|].
  destruct (Hv x) as [vx Hvx]; [by apply elem_of_cons; auto|].
  cbn. rewrite Hvx. cbn. apply IH. intros i Hi. apply Hv.
  by apply elem_of_cons; auto.
Qed.
End fill_more.

(** ** Keys of a channel range *)

Lemma in_channel_keys (key : Z → string) (n : Z) (k : string) :
  k ∈ (list_to_set (key <$> seqZ 1 n) : gset string) ↔
  ∃ i, 1 ≤ i ≤ n ∧ k = key i.
Proof.
  rewrite elem_of_list_to_set, list_elem_of_fmap.
  setoid_rewrite elem_of_seqZ.
  split; intros (i & H1 & H2); exists i; (split; [lia || done|done || lia]).
Qed.

(** Property X6.  For every base key, two channels have the same sensor key
    only when they are the same channel, and the same battery key only when
    they are the same channel: no channel of a family overwrites another
    one. *)
Theorem channel_keys_distinct (base_key : string) (i j : Z) :
  (channel_key base_key i = channel_key base_key j ↔ i = j) ∧
  (base_key +:+ str i = base_key +:+ str j ↔ i = j).
Proof.
  split; (split; [|by intros ->]).
  - apply channel_key_inj.
  - apply battery_key_inj.
Qed.

Lemma channel_keys_distinct_witness : 3 = 3.
Proof.
  apply (proj1 (channel_keys_distinct "tempf" 3 3)). reflexivity.
Defined.

(** ** The filling loop with exceptions *)

Section fill_or_raise_facts.
Context {E V : Type} (key : Z → string) (value : Z → E + V).

Lemma fill_or_raise_raised e l :
  foldl (fill_or_raise_step key value) (inl e) l = inl e.
Proof. by induction l. Qed.

(** Forgetting which exception was raised gives the loop of [fill]. *)
Lemma fill_or_raise_returned l acc :
  returned (foldl (fill_or_raise_step key value) acc l)
  = foldl (fill_step key (λ i, returned (value i))) (returned acc) l.
Proof.
  revert acc. induction l as [|x l IH]; intros acc; [done|].
  cbn [foldl]. rewrite IH. f_equal.
  destruct acc as [e|m]; [done|]. cbn. by destruct (value x).
Qed.

Lemma fill_or_raise_fill l m :
  fill_or_raise key value l = inr m →
  fill key (λ i, returned (value i)) l = Some m.
Proof.
  intros H. unfold fill.
  change (Some (∅ : gmap string V)) with (returned (E:=E) (inr (∅ : gmap string V))).
  rewrite <- fill_or_raise_returned.
  unfold fill_or_raise in H. by rewrite H.
Qed.

(** The exception that ends the loop is raised by a channel of the list,
    and every channel before it gave a value. *)
Lemma fill_or_raise_first l acc e :
  foldl (fill_or_raise_step key value) (inr acc) l = inl e →
  ∃ l1 i l2, l = l1 ++ i :: l2 ∧ value i = inl e ∧
             Forall (λ j, ∃ v, value j = inr v) l1.
Proof.
  revert acc. induction l as [|x l IH]; intros acc H; [done|].
  cbn in H. destruct (value x) as [e'|v] eqn:Hx.
  - rewrite fill_or_raise_raised in H. injection H as ->.
    by exists [], x, l.
  - destruct (IH _ H) as (l1 & i & l2 & -> & Hi & Hl1).
    exists (x :: l1), i, l2. split; [done|]. split; [done|].
    apply Forall_cons. split; [by exists v|done].
Qed.

Lemma fill_or_raise_at l1 i l2 acc e :
  Forall (λ j, ∃ v, value j = inr v) l1 → value i = inl e →
  foldl (fill_or_raise_step key value) (inr acc) (l1 ++ i :: l2) = inl e.
Proof.
  revert acc. induction l1 as [|x l1 IH]; intros acc Hl1 Hi.
  - cbn. rewrite Hi. apply fill_or_raise_raised.
  - apply Forall_cons in Hl1 as [[v Hv] Hl1]. cbn. rewrite Hv. by apply IH.
Qed.
End fill_or_raise_facts.

(** A split of [1..n] at a channel: the channels before it are the smaller
    ones. *)
Lemma seqZ_split_at (n : Z) (l1 : list Z) (i : Z) (l2 : list Z) :
  seqZ 1 n = l1 ++ i :: l2 →
  1 ≤ i ≤ n ∧ ∀ j, 1 ≤ j < i → j ∈ l1.
Proof.
  intros H.
  assert (i = 1 + Z.of_nat (length l1)) as Hi.
  { assert (seqZ 1 n !! length l1 = Some i) as Hl
      by (rewrite H; by apply list_lookup_middle).
    apply lookup_seqZ in Hl. lia. }
  split.
  - assert (i ∈ seqZ 1 n) as Hin
      by (rewrite H; apply elem_of_app; right; apply list_elem_of_here).
    apply elem_of_seqZ in Hin. lia.
  - intros j Hj. apply list_elem_of_lookup. exists (Z.to_nat (j - 1)).
    assert (Z.to_nat (j - 1) < length l1)%nat as Hlt by lia.
    assert (seqZ 1 n !! Z.to_nat (j - 1) = l1 !! Z.to_nat (j - 1)) as Heq
      by (rewrite H; by apply lookup_app_l).
    rewrite <- Heq. apply lookup_seqZ. split; [lia|].
    assert (length (seqZ 1 n) = length (l1 ++ i :: l2)) as Hlen by by rewrite H.
    rewrite length_seqZ, length_app in Hlen. cbn in Hlen. lia.
Qed.

Lemma seqZ_split_before (n i : Z) :
  1 ≤ i ≤ n →
  seqZ 1 n = seqZ 1 (i - 1) ++ i :: seqZ (i + 1) (n - i).
Proof.
  intros Hi. replace n with ((i - 1) + (1 + (n - i))) at 1 by lia.
  rewrite seqZ_app by lia. f_equal.
  rewrite seqZ_cons by lia. f_equal; [lia|]. f_equal; lia.
Qed.

Section loop_over_range.
Context {E V : Type} (key : Z → string) (value : Z → E + V).

(** The loop over the channels [1..n]: it ends normally exactly when every
    channel gives a value, and otherwise with the exception of the first
    channel that gives none. *)
Lemma fill_or_raise_range (n : Z) :
  ((∃ m, fill_or_raise key value (seqZ 1 n) = inr m) ↔
   ∀ i, 1 ≤ i ≤ n → ∃ v, value i = inr v) ∧
  (∀ e, fill_or_raise key value (seqZ 1 n) = inl e ↔
        ∃ i, 1 ≤ i ≤ n ∧ value i = inl e ∧
             ∀ j, 1 ≤ j < i → ∃ v, value j = inr v).
Proof.
  assert (∀ e, fill_or_raise key value (seqZ 1 n) = inl e ↔
        ∃ i, 1 ≤ i ≤ n ∧ value i = inl e ∧
             ∀ j, 1 ≤ j < i → ∃ v, value j = inr v) as Hraise.
  { intros e. split.
    - intros (l1 & i & l2 & Hl & Hi & Hl1)%fill_or_raise_first.
      destruct (seqZ_split_at _ _ _ _ Hl) as [Hrange Hbefore].
      exists i. split; [done|]. split; [done|].
      intros j Hj. rewrite Forall_forall in Hl1. by apply Hl1, Hbefore.
    - intros (i & Hi & He & Hbefore). unfold fill_or_raise.
      rewrite (seqZ_split_before n i Hi). apply fill_or_raise_at; [|done].
      apply Forall_forall. intros j Hj%elem_of_seqZ. apply Hbefore. lia. }
  split; [|exact Hraise]. split.
  - intros [m Hm] i Hi. destruct (value i) as [e|v] eqn:Hv; [|by exists v].
    assert (∃ e', fill_or_raise key value (seqZ 1 n) = inl e') as [e' He'].
    { unfold fill_or_raise. rewrite (seqZ_split_before n i Hi).
      generalize (seqZ 1 (i - 1)) (∅ : gmap string V). intros l.
      induction l as [|x l IH]; intros acc; cbn.
      - rewrite Hv. eexists. apply fill_or_raise_raised.
      - destruct (value x); [eexists; apply fill_or_raise_raised|apply IH]. }
    congruence.
  - intros Hall. destruct (fill_or_raise key value (seqZ 1 n)) as [e|m] eqn:H;
      [|by exists m].
    destruct (proj1 (Hraise e) eq_refl) as (i & Hi & He & _).
    destruct (Hall i Hi) as [v Hv]. congruence.
Qed.
End loop_over_range.

(** ** The two generators over any formatter *)

Section generators_any_format.
Context {E : Type} (fmt : string → Z → E + string).

Lemma generate_channel_sensors_loop
    base_key name_template sensor_def max_channels :
  AnyFormat._generate_channel_sensors fmt base_key name_template sensor_def
    max_channels
  = fill_or_raise (channel_key base_key)
      (channel_sensor_value_with fmt name_template sensor_def)
      (seqZ 1 max_channels).
Proof.
  apply foldl_ext_eq. intros [e|acc] i; [done|].
  unfold AnyFormat.channel_sensor_step, fill_or_raise_step,
    channel_sensor_value_with.
  by destruct (fmt name_template i).
Qed.

Lemma generate_battery_sensors_loop
    base_key name_template sensor_key_template max_channels :
  AnyFormat._generate_battery_sensors fmt base_key name_template
    sensor_key_template max_channels
  = fill_or_raise (λ i, base_key +:+ str i)
      (battery_sensor_value_with fmt name_template sensor_key_template)
      (seqZ 1 max_channels).
Proof.
  apply foldl_ext_eq. intros [e|acc] i; [done|].
  unfold AnyFormat.battery_sensor_step, fill_or_raise_step,
    battery_sensor_value_with.
  destruct (fmt name_template i); [done|].
  by destruct (fmt sensor_key_template i).
Qed.

Lemma channel_sensors_returned_dom
    base_key name_template sensor_def max_channels generated :
  AnyFormat._generate_channel_sensors fmt base_key name_template sensor_def
    max_channels = inr generated →
  dom generated = list_to_set (channel_key base_key <$> seqZ 1 max_channels).
Proof.
  rewrite generate_channel_sensors_loop. intros H%fill_or_raise_fill.
  by apply fill_dom in H.
Qed.

Lemma battery_sensors_returned_dom
    base_key name_template sensor_key_template max_channels generated :
  AnyFormat._generate_battery_sensors fmt base_key name_template
    sensor_key_template max_channels = inr generated →
  dom generated
  = list_to_set ((λ i, base_key +:+ str i) <$> seqZ 1 max_channels).
Proof.
  rewrite generate_battery_sensors_loop. intros H%fill_or_raise_fill.
  by apply fill_dom in H.
Qed.

(** Property X1.  When [_generate_channel_sensors] returns a dict, whatever
    [str.format] does with the name template, the keys of the dict are the
    keys of the channels [1..max_channels] and no others: a key is present
    exactly when it is the key of a channel of the range, the key of a
    channel outside the range (channel 0, channel [max_channels + 1], a
    negative channel) is absent, and the dict has [max_channels] entries
    (none when [max_channels] is negative). *)
Theorem channel_sensors_exact
    (base_key name_template : string) (sensor_def : gmap string string)
    (max_channels : Z) (generated : gmap string (gmap string string)) :
  AnyFormat._generate_channel_sensors fmt base_key name_template sensor_def
    max_channels = inr generated →
  (∀ k, is_Some (generated !! k) ↔
        ∃ i, 1 ≤ i ≤ max_channels ∧ k = channel_key base_key i) ∧
  (∀ i, ¬ (1 ≤ i ≤ max_channels) →
        generated !! channel_key base_key i = None) ∧
  size generated = Z.to_nat max_channels.
Proof.
  intros Hgen. pose proof (channel_sensors_returned_dom _ _ _ _ _ Hgen) as Hd.
  split; [|split].
  - intros k. rewrite <- elem_of_dom, Hd. apply in_channel_keys.
  - intros i Hi. apply not_elem_of_dom. rewrite Hd, in_channel_keys.
    intros (j & Hj & Heq). apply channel_key_inj in Heq as ->. done.
  - rewrite generate_channel_sensors_loop in Hgen.
    apply fill_or_raise_fill in Hgen.
    rewrite (fill_size _ _ _ _ (channel_key_inj base_key)
               (NoDup_seqZ 1 max_channels) Hgen).
    apply length_seqZ.
Qed.

(** Property X2.  Every entry of the dict returned by
    [_generate_channel_sensors] belongs to a channel of the range; its name
    is the text that [str.format] returned for the name template and that
    channel, also when [sensor_def] has a name of its own, and every other
    field is the field of [sensor_def], present or absent as it is there. *)
Theorem channel_sensor_fields
    (base_key name_template : string) (sensor_def : gmap string string)
    (max_channels : Z) (generated : gmap string (gmap string string))
    (k : string) (entry : gmap string string) :
  AnyFormat._generate_channel_sensors fmt base_key name_template sensor_def
    max_channels = inr generated →
  generated !! k = Some entry →
  ∃ i name, 1 ≤ i ≤ max_channels ∧ k = channel_key base_key i ∧
            fmt name_template i = inr name ∧
            entry !! "name" = Some name ∧
            ∀ fld, fld ≠ "name" → entry !! fld = sensor_def !! fld.
Proof.
  rewrite generate_channel_sensors_loop. intros Hgen%fill_or_raise_fill Hk.
  apply (fill_lookup _ _ (channel_key_inj base_key) _ _
           (NoDup_seqZ 1 max_channels) Hgen) in Hk
    as (i & Hi%elem_of_seqZ & -> & Hv).
  unfold channel_sensor_value_with in Hv.
  destruct (fmt name_template i) as [e|name] eqn:Hname; [done|].
  injection Hv as <-. exists i, name.
  split; [lia|]. split; [done|]. split; [done|].
  split; [apply lookup_insert_eq|].
  intros fld Hfld. by rewrite lookup_insert_ne.
Qed.

(** Property X3.  [_generate_channel_sensors] returns a dict exactly when
    [str.format] returns a text for the name template and every channel of
    [1..max_channels]; otherwise it raises the exception that [str.format]
    raised for the first channel it could not format, and no other.  With
    [max_channels] at most 0 the loop body never runs and the result is the
    empty dict, whatever the template is. *)
Theorem channel_sensors_raises
    (base_key name_template : string) (sensor_def : gmap string string)
    (max_channels : Z) :
  ((∃ generated,
      AnyFormat._generate_channel_sensors fmt base_key name_template
        sensor_def max_channels = inr generated) ↔
   ∀ i, 1 ≤ i ≤ max_channels → ∃ name, fmt name_template i = inr name) ∧
  (∀ e, AnyFormat._generate_channel_sensors fmt base_key name_template
          sensor_def max_channels = inl e ↔
        ∃ i, 1 ≤ i ≤ max_channels ∧ fmt name_template i = inl e ∧
             ∀ j, 1 ≤ j < i → ∃ name, fmt name_template j = inr name) ∧
  (max_channels ≤ 0 →
   AnyFormat._generate_channel_sensors fmt base_key name_template sensor_def
     max_channels = inr ∅).
Proof.
  assert (∀ i, (∃ v, channel_sensor_value_with fmt name_template sensor_def i
                     = inr v) ↔ ∃ name, fmt name_template i = inr name) as Hok.
  { intros i. unfold channel_sensor_value_with.
    destruct (fmt name_template i) as [e|name].
    - split; intros [? H]; congruence.
    - split; intros _; by eexists. }
  assert (∀ i e, channel_sensor_value_with fmt name_template sensor_def i
                 = inl e ↔ fmt name_template i = inl e) as Hbad.
  { intros i e. unfold channel_sensor_value_with.
    destruct (fmt name_template i) as [e'|name]; split; intros H;
      congruence. }
  rewrite generate_channel_sensors_loop.
  destruct (fill_or_raise_range (channel_key base_key)
              (channel_sensor_value_with fmt name_template sensor_def)
              max_channels) as [Hret Hraise].
  split; [|split].
  - rewrite Hret. by setoid_rewrite Hok.
  - intros e. rewrite Hraise. setoid_rewrite Hbad. by setoid_rewrite Hok.
  - intros Hn. unfold fill_or_raise. by rewrite seqZ_nil.
Qed.

(** Property X4.  When [_generate_battery_sensors] returns a dict, its
    entries are, for every channel [i] of [1..max_channels] and for nothing
    else, the key [base_key] followed by [i] with the two fields [name] and
    [sensor_key] that [str.format] returned for the two templates; every
    entry has exactly these two fields, a channel outside the range has no
    key, and the dict has [max_channels] entries. *)
Theorem battery_sensors_exact
    (base_key name_template sensor_key_template : string) (max_channels : Z)
    (generated : gmap string (gmap string string)) :
  AnyFormat._generate_battery_sensors fmt base_key name_template
    sensor_key_template max_channels = inr generated →
  (∀ k entry, generated !! k = Some entry ↔
     ∃ i name sensor_key,
       1 ≤ i ≤ max_channels ∧ k = base_key +:+ str i ∧
       fmt name_template i = inr name ∧
       fmt sensor_key_template i = inr sensor_key ∧
       entry = mkdict [("name", name); ("sensor_key", sensor_key)]) ∧
  (∀ k entry, generated !! k = Some entry →
     dom entry = {["name"; "sensor_key"]}) ∧
  (∀ i, ¬ (1 ≤ i ≤ max_channels) →
     generated !! (base_key +:+ str i) = None) ∧
  size generated = Z.to_nat max_channels.
Proof.
  intros Hgen. pose proof (battery_sensors_returned_dom _ _ _ _ _ Hgen) as Hd.
  rewrite generate_battery_sensors_loop in Hgen.
  apply fill_or_raise_fill in Hgen.
  assert (∀ k entry, generated !! k = Some entry ↔
     ∃ i name sensor_key,
       1 ≤ i ≤ max_channels ∧ k = base_key +:+ str i ∧
       fmt name_template i = inr name ∧
       fmt sensor_key_template i = inr sensor_key ∧
       entry = mkdict [("name", name); ("sensor_key", sensor_key)]) as Hex.
  { intros k entry.
    rewrite (fill_lookup _ _ (battery_key_inj base_key) _ _
               (NoDup_seqZ 1 max_channels) Hgen k entry).
    unfold battery_sensor_value_with. split.
    - intros (i & Hi%elem_of_seqZ & -> & Hv).
      destruct (fmt name_template i) as [e|name] eqn:Hn; [done|].
      destruct (fmt sensor_key_template i) as [e|sk] eqn:Hs; [done|].
      injection Hv as <-. exists i, name, sk.
      split; [lia|]. by repeat split.
    - intros (i & name & sk & Hi & -> & Hn & Hs & ->).
      exists i. rewrite elem_of_seqZ, Hn, Hs. split; [lia|done]. }
  split; [exact Hex|]. split; [|split].
  - intros k entry (i & name & sk & _ & _ & _ & _ & ->)%Hex.
    unfold mkdict. cbn. rewrite !dom_insert_L, dom_empty_L.
    by rewrite (right_id_L ∅ (∪)), (comm_L (∪)).
  - intros i Hi. apply not_elem_of_dom.
    rewrite Hd, (in_channel_keys (λ j, base_key +:+ str j)).
    intros (j & Hj & Heq). apply battery_key_inj in Heq as ->. done.
  - rewrite (fill_size _ _ _ _ (battery_key_inj base_key)
               (NoDup_seqZ 1 max_channels) Hgen).
    apply length_seqZ.
Qed.

(** Property X5.  [_generate_battery_sensors] returns a dict exactly when
    [str.format] returns a text for both templates and every channel of the
    range; otherwise it raises the exception of the first channel for which
    one of the two could not be formatted, the name template being formatted
    before the sensor-key template.  With [max_channels] at most 0 the result
    is the empty dict. *)
Theorem battery_sensors_raises
    (base_key name_template sensor_key_template : string) (max_channels : Z) :
  ((∃ generated,
      AnyFormat._generate_battery_sensors fmt base_key name_template
        sensor_key_template max_channels = inr generated) ↔
   ∀ i, 1 ≤ i ≤ max_channels →
        (∃ name, fmt name_template i = inr name) ∧
        (∃ sensor_key, fmt sensor_key_template i = inr sensor_key)) ∧
  (∀ e, AnyFormat._generate_battery_sensors fmt base_key name_template
          sensor_key_template max_channels = inl e ↔
        ∃ i, 1 ≤ i ≤ max_channels ∧
             (fmt name_template i = inl e ∨
              (∃ name, fmt name_template i = inr name) ∧
              fmt sensor_key_template i = inl e) ∧
             ∀ j, 1 ≤ j < i →
                  (∃ name, fmt name_template j = inr name) ∧
                  (∃ sensor_key, fmt sensor_key_template j = inr sensor_key)) ∧
  (max_channels ≤ 0 →
   AnyFormat._generate_battery_sensors fmt base_key name_template
     sensor_key_template max_channels = inr ∅).
Proof.
  assert (∀ i, (∃ v, battery_sensor_value_with fmt name_template
                       sensor_key_template i = inr v) ↔
               (∃ name, fmt name_template i = inr name) ∧
               (∃ sk, fmt sensor_key_template i = inr sk)) as Hok.
  { intros i. unfold battery_sensor_value_with.
    destruct (fmt name_template i) as [e|name];
      [split; [intros [? H]|intros [[? H] _]]; congruence|].
    destruct (fmt sensor_key_template i) as [e|sk];
      [split; [intros [? H]|intros [_ [? H]]]; congruence|].
    split; [intros _; split; by eexists|intros _; by eexists]. }
  assert (∀ i e, battery_sensor_value_with fmt name_template
                   sensor_key_template i = inl e ↔
                 fmt name_template i = inl e ∨
                 (∃ name, fmt name_template i = inr name) ∧
                 fmt sensor_key_template i = inl e) as Hbad.
  { intros i e. unfold battery_sensor_value_with.
    destruct (fmt name_template i) as [e1|name].
    - split; [intros H; left; congruence|].
      intros [H|[[name H] _]]; congruence.
    - destruct (fmt sensor_key_template i) as [e2|sk].
      + split; [intros H; right; split; [by exists name|congruence]|].
        intros [H|[_ H]]; congruence.
      + split; [intros H; congruence|].
        intros [H|[_ H]]; congruence. }
  rewrite generate_battery_sensors_loop.
  destruct (fill_or_raise_range (λ i, base_key +:+ str i)
              (battery_sensor_value_with fmt name_template
                 sensor_key_template)
              max_channels) as [Hret Hraise].
  split; [|split].
  - rewrite Hret. by setoid_rewrite Hok.
  - intros e. rewrite Hraise. setoid_rewrite Hbad. by setoid_rewrite Hok.
  - intros Hn. unfold fill_or_raise. by rewrite seqZ_nil.
Qed.
End generators_any_format.

(** ** Sequences of update statements over any formatter *)

Section updates_any_format.
Context {E : Type} (fmt : string → Z → E + string).

Lemma exec_app body1 body2 st :
  AnyFormat.exec fmt (body1 ++ body2) st
  = match AnyFormat.exec fmt body1 st with
    | inl e => inl e
    | inr st' => AnyFormat.exec fmt body2 st'
    end.
Proof.
  revert st. induction body1 as [|s body1 IH]; intros st; [done|].
  cbn. destruct (AnyFormat.exec_stmt fmt s st) as [e|st1]; [done|]. apply IH.
Qed.

(** What a statement does is to lay a dict, which does not depend on the
    state, over one of the two catalogs; when it raises, it raises from
    every state. *)
Lemma exec_stmt_shape s st :
  match AnyFormat.exec_stmt fmt s st with
  | inl e => ∀ st0, AnyFormat.exec_stmt fmt s st0 = inl e
  | inr _ =>
      ∃ gs gb,
        dom gs = list_to_set (written_sensor_keys s) ∧
        dom gb = list_to_set (written_battery_keys s) ∧
        ∀ st0, AnyFormat.exec_stmt fmt s st0
               = inr {| sensor_types := gs ∪ sensor_types st0;
                        battery_sensors := gb ∪ battery_sensors st0 |}
  end.
Proof.
  destruct s as [b t d n|b t k n]; cbn.
  - destruct (AnyFormat._generate_channel_sensors fmt b t d n) as [e|g] eqn:Hg;
      [done|].
    exists g, ∅. split; [exact (channel_sensors_returned_dom _ _ _ _ _ _ Hg)|].
    split; [by rewrite dom_empty_L|].
    intros [s0 b0]. cbn. unfold update. by rewrite (left_id_L ∅ (∪)).
  - destruct (AnyFormat._generate_battery_sensors fmt b t k n) as [e|g] eqn:Hg;
      [done|].
    exists ∅, g. split; [by rewrite dom_empty_L|].
    split; [exact (battery_sensors_returned_dom _ _ _ _ _ _ Hg)|].
    intros [s0 b0]. cbn. unfold update. by rewrite (left_id_L ∅ (∪)).
Qed.

Lemma exec_shape body st :
  match AnyFormat.exec fmt body st with
  | inl e => ∀ st0, AnyFormat.exec fmt body st0 = inl e
  | inr _ =>
      ∃ gs gb,
        dom gs = list_to_set (body ≫= written_sensor_keys) ∧
        dom gb = list_to_set (body ≫= written_battery_keys) ∧
        ∀ st0, AnyFormat.exec fmt body st0
               = inr {| sensor_types := gs ∪ sensor_types st0;
                        battery_sensors := gb ∪ battery_sensors st0 |}
  end.
Proof.
  revert st. induction body as [|s body IH]; intros st.
  - cbn. exists ∅, ∅. rewrite !dom_empty_L. do 2 (split; [done|]).
    intros [s0 b0]. cbn. by rewrite !(left_id_L ∅ (∪)).
  - cbn. pose proof (exec_stmt_shape s st) as Hs.
    destruct (AnyFormat.exec_stmt fmt s st) as [e|st1].
    { intros st0. by rewrite Hs. }
    destruct Hs as (g1 & h1 & Hg1 & Hh1 & Hs0).
    pose proof (IH st1) as Hb.
    destruct (AnyFormat.exec fmt body st1) as [e|st2].
    { intros st0. rewrite Hs0. apply Hb. }
    destruct Hb as (gs & gb & Hgs & Hgb & Hbody).
    exists (gs ∪ g1), (gb ∪ h1).
    rewrite !dom_union_L, !list_to_set_app_L, Hgs, Hgb, Hg1, Hh1.
    split; [apply (comm_L (∪))|]. split; [apply (comm_L (∪))|].
    intros st0. rewrite Hs0, Hbody. cbn. by rewrite !(assoc_L (∪)).
Qed.

(** Property X7.  Running any sequence of update statements twice in a row
    gives what running it once gives, from every state and whatever
    [str.format] does: the same exception, or the same two catalogs. *)
Theorem rerun_changes_nothing (body : list stmt) (st : module_state) :
  AnyFormat.exec fmt (body ++ body) st = AnyFormat.exec fmt body st.
Proof.
  rewrite exec_app. pose proof (exec_shape body st) as H.
  destruct (AnyFormat.exec fmt body st) as [e|st'] eqn:Hst; [done|].
  destruct H as (gs & gb & _ & _ & Hbody).
  rewrite Hbody in Hst. injection Hst as <-. rewrite Hbody. cbn.
  by rewrite !(assoc_L (∪)), !(idemp_L (∪)).
Qed.

(** Property X8.  A sequence of update statements that ends normally leaves
    every key it writes present, leaves every other key of both catalogs
    exactly as it was (present with the same entry, or absent), and so never
    removes a key. *)
Theorem updates_only_write_their_keys
    (body : list stmt) (st st' : module_state) :
  AnyFormat.exec fmt body st = inr st' →
  (∀ k, k ∈ body ≫= written_sensor_keys → is_Some (sensor_types st' !! k)) ∧
  (∀ k, k ∉ body ≫= written_sensor_keys →
        sensor_types st' !! k = sensor_types st !! k) ∧
  (∀ k, k ∈ body ≫= written_battery_keys →
        is_Some (battery_sensors st' !! k)) ∧
  (∀ k, k ∉ body ≫= written_battery_keys →
        battery_sensors st' !! k = battery_sensors st !! k) ∧
  dom (sensor_types st) ⊆ dom (sensor_types st') ∧
  dom (battery_sensors st) ⊆ dom (battery_sensors st').
Proof.
  intros H. pose proof (exec_shape body st) as Hshape. rewrite H in Hshape.
  destruct Hshape as (gs & gb & Hgs & Hgb & Hbody).
  rewrite Hbody in H. injection H as <-. cbn.
  assert (∀ (g m : gmap string (gmap string string)) (l : list string),
            dom g = list_to_set l →
            (∀ k, k ∈ l → is_Some ((g ∪ m) !! k)) ∧
            (∀ k, k ∉ l → (g ∪ m) !! k = m !! k) ∧
            dom m ⊆ dom (g ∪ m)) as Hlay.
  { intros g m l Hdom. split; [|split].
    - intros k Hk. apply elem_of_dom. rewrite dom_union_L, Hdom.
      apply elem_of_union_l. by apply elem_of_list_to_set.
    - intros k Hk. apply lookup_union_r. apply not_elem_of_dom.
      rewrite Hdom. by rewrite elem_of_list_to_set.
    - rewrite dom_union_L. apply union_subseteq_r. }
  destruct (Hlay gs (sensor_types st) _ Hgs) as (H1 & H2 & H3).
  destruct (Hlay gb (battery_sensors st) _ Hgb) as (H4 & H5 & H6).
  done.
Qed.

(** Property X9.  When two consecutive updates of [SENSOR_TYPES] use the
    same base key and the same channel count, and the first one returns, the
    pair does what the second one does alone, whatever the two sensor
    definitions and name templates are and whatever [str.format] does with
    them: the same exception, or the same catalogs with nothing of the first
    pass left. *)
Theorem later_pass_overrides
    (base_key name_template1 name_template2 : string)
    (sensor_def1 sensor_def2 : gmap string string) (max_channels : Z)
    (generated1 : gmap string (gmap string string)) (st : module_state) :
  AnyFormat._generate_channel_sensors fmt base_key name_template1 sensor_def1
    max_channels = inr generated1 →
  AnyFormat.exec fmt
    [SENSOR_TYPES_update base_key name_template1 sensor_def1 max_channels;
     SENSOR_TYPES_update base_key name_template2 sensor_def2 max_channels]
    st
  = AnyFormat.exec fmt
      [SENSOR_TYPES_update base_key name_template2 sensor_def2 max_channels]
      st.
Proof.
  intros Hg1. cbn. rewrite Hg1.
  destruct (AnyFormat._generate_channel_sensors fmt base_key name_template2
              sensor_def2 max_channels) as [e|g2] eqn:Hg2; [done|].
  cbn. unfold update. do 2 f_equal.
  apply map_eq. intros k.
  destruct (g2 !! k) as [e|] eqn:Hk.
  - by rewrite !(lookup_union_Some_l _ _ _ _ Hk).
  - assert (generated1 !! k = None) as Hk1.
    { apply not_elem_of_dom.
      rewrite (channel_sensors_returned_dom _ _ _ _ _ _ Hg1).
      rewrite <- (channel_sensors_returned_dom _ _ _ _ _ _ Hg2).
      by apply not_elem_of_dom. }
    by rewrite !(lookup_union_r _ _ _ Hk), (lookup_union_r _ _ _ Hk1).
Qed.

Lemma exec_swap_disjoint (s1 s2 : stmt) (st st' : module_state) :
  Forall (λ k, k ∉ written_sensor_keys s2) (written_sensor_keys s1) →
  Forall (λ k, k ∉ written_battery_keys s2) (written_battery_keys s1) →
  AnyFormat.exec fmt [s1; s2] st = inr st' →
  AnyFormat.exec fmt [s2; s1] st = inr st'.
Proof.
  intros Hs Hb. rewrite Forall_forall in Hs, Hb. cbn.
  pose proof (exec_stmt_shape s1 st) as H1.
  destruct (AnyFormat.exec_stmt fmt s1 st) as [e1|st1] eqn:E1; [done|].
  destruct H1 as (g1 & h1 & Hg1 & Hh1 & F1).
  pose proof (exec_stmt_shape s2 st1) as H2.
  destruct (AnyFormat.exec_stmt fmt s2 st1) as [e2|st2] eqn:E2; [done|].
  destruct H2 as (g2 & h2 & Hg2 & Hh2 & F2).
  intros [= <-]. rewrite F1 in E1. injection E1 as <-.
  rewrite F2 in E2. injection E2 as <-. rewrite F2, F1. cbn.
  rewrite !(assoc_L (∪)).
  assert (g1 ##ₘ g2) as Hg.
  { apply map_disjoint_dom. rewrite Hg1, Hg2. intros k.
    rewrite !elem_of_list_to_set. apply Hs. }
  assert (h1 ##ₘ h2) as Hh.
  { apply map_disjoint_dom. rewrite Hh1, Hh2. intros k.
    rewrite !elem_of_list_to_set. apply Hb. }
  by rewrite (map_union_comm g1 g2), (map_union_comm h1 h2).
Qed.

(** Property X10.  Two update statements that write no common sensor key and
    no common battery key end normally in one order exactly when they end
    normally in the other order, and then with the same two catalogs; in
    particular this holds of an update of [SENSOR_TYPES] and an update of
    [BATTERY_SENSORS].  (When both statements raise, the exception is that
    of the statement that runs first, so the two orders may raise different
    exceptions.) *)
Theorem disjoint_updates_commute (s1 s2 : stmt) (st st' : module_state) :
  (Forall (λ k, k ∉ written_sensor_keys s2) (written_sensor_keys s1) →
   Forall (λ k, k ∉ written_battery_keys s2) (written_battery_keys s1) →
   (AnyFormat.exec fmt [s1; s2] st = inr st' ↔
    AnyFormat.exec fmt [s2; s1] st = inr st')) ∧
  (∀ base_key name_template sensor_def max_channels
     base_key' name_template' sensor_key_template' max_channels',
     AnyFormat.exec fmt
       [SENSOR_TYPES_update base_key name_template sensor_def max_channels;
        BATTERY_SENSORS_update base_key' name_template'
          sensor_key_template' max_channels'] st = inr st' ↔
     AnyFormat.exec fmt
       [BATTERY_SENSORS_update base_key' name_template'
          sensor_key_template' max_channels';
        SENSOR_TYPES_update base_key name_template sensor_def
          max_channels] st = inr st').
Proof.
  assert (∀ s1 s2,
    Forall (λ k, k ∉ written_sensor_keys s2) (written_sensor_keys s1) →
    Forall (λ k, k ∉ written_battery_keys s2) (written_battery_keys s1) →
    (AnyFormat.exec fmt [s1; s2] st = inr st' ↔
     AnyFormat.exec fmt [s2; s1] st = inr st')) as Hswap.
  { clear s1 s2. intros s1 s2 Hs Hb.
    split; apply exec_swap_disjoint; try done.
    - apply Forall_forall. intros k Hk Hk1. rewrite Forall_forall in Hs.
      by apply (Hs k Hk1).
    - apply Forall_forall. intros k Hk Hk1. rewrite Forall_forall in Hb.
      by apply (Hb k Hk1). }
  split; [apply Hswap|].
  intros b t d n b' t' k' n'. apply Hswap.
  - apply Forall_forall. intros k _. apply not_elem_of_nil.
  - apply Forall_nil_2.
Qed.

(** A run of this file's model that ends normally is a run of the code over
    every formatter that returns the texts of [format]. *)
Lemma generate_channel_sensors_any base_key name_template sensor_def
    max_channels generated :
  (∀ tmpl i text, format tmpl i = Some text → fmt tmpl i = inr text) →
  _generate_channel_sensors base_key name_template sensor_def max_channels
    = Some generated →
  AnyFormat._generate_channel_sensors fmt base_key name_template sensor_def
    max_channels = inr generated.
Proof.
  intros Hfmt. unfold _generate_channel_sensors,
    AnyFormat._generate_channel_sensors.
  generalize (seqZ 1 max_channels) (∅ : gmap string (gmap string string)).
  intros l. revert generated.
  assert (∀ l', foldl (channel_sensor_step base_key name_template sensor_def)
                  None l' = None) as Hnone
    by (intros l'; by induction l').
  induction l as [|x l IH]; intros generated acc H; [by injection H as ->|].
  cbn in *. destruct (format name_template x) as [name|] eqn:Hn;
    [|cbn in H; by rewrite Hnone in H].
  rewrite (Hfmt _ _ _ Hn). by apply IH.
Qed.

Lemma generate_battery_sensors_any base_key name_template
    sensor_key_template max_channels generated :
  (∀ tmpl i text, format tmpl i = Some text → fmt tmpl i = inr text) →
  _generate_battery_sensors base_key name_template sensor_key_template
    max_channels = Some generated →
  AnyFormat._generate_battery_sensors fmt base_key name_template
    sensor_key_template max_channels = inr generated.
Proof.
  intros Hfmt. unfold _generate_battery_sensors,
    AnyFormat._generate_battery_sensors.
  generalize (seqZ 1 max_channels) (∅ : gmap string (gmap string string)).
  intros l. revert generated.
  assert (∀ l', foldl (battery_sensor_step base_key name_template
                         sensor_key_template) None l' = None) as Hnone
    by (intros l'; by induction l').
  induction l as [|x l IH]; intros generated acc H; [by injection H as ->|].
  cbn in *. destruct (format name_template x) as [name|] eqn:Hn;
    [|cbn in H; by rewrite Hnone in H].
  cbn in H. destruct (format sensor_key_template x) as [sk|] eqn:Hs;
    [|cbn in H; by rewrite Hnone in H].
  rewrite (Hfmt _ _ _ Hn), (Hfmt _ _ _ Hs). by apply IH.
Qed.

Lemma exec_any body st st' :
  (∀ tmpl i text, format tmpl i = Some text → fmt tmpl i = inr text) →
  exec body st = Some st' → AnyFormat.exec fmt body st = inr st'.
Proof.
  intros Hfmt. revert st. induction body as [|s body IH]; intros st H.
  - by injection H as ->.
  - cbn in *. destruct s as [b t d n|b t k n]; cbn in *.
    + destruct (_generate_channel_sensors b t d n) as [g|] eqn:Hg; [|done].
      rewrite (generate_channel_sensors_any _ _ _ _ _ Hfmt Hg). by apply IH.
    + destruct (_generate_battery_sensors b t k n) as [g|] eqn:Hg; [|done].
      rewrite (generate_battery_sensors_any _ _ _ _ _ Hfmt Hg). by apply IH.
Qed.

(** Property X17.  Importing the module ends normally, with the assembled
    catalogs [SENSOR_TYPES] and [BATTERY_SENSORS] of this file, over every
    formatter that returns the texts of [format]: what [str.format] does with
    anything but the plain [{ch}] field and the two brace escapes has no
    part in the import. *)
Theorem import_needs_plain_fields_only :
  (∀ tmpl i text, format tmpl i = Some text → fmt tmpl i = inr text) →
  AnyFormat.import_module fmt
  = inr {| sensor_types := SENSOR_TYPES; battery_sensors := BATTERY_SENSORS |}.
Proof.
  intros Hfmt. apply (exec_any _ _ _ Hfmt). by_evaluation.
Qed.
End updates_any_format.

(** ** The properties at the module's own calls *)

Lemma channel_sensors_exact_witness :
  size (default ∅ (returned (AnyFormat._generate_channel_sensors plain_format
          "tf_ch" "Soil Temperature CH{ch}"
          (mkdict [("unit", "°C"); ("device_class", "temperature")]) 8)))
  = Z.to_nat 8.
Proof.
  apply (channel_sensors_exact plain_format "tf_ch" "Soil Temperature CH{ch}"
           (mkdict [("unit", "°C"); ("device_class", "temperature")]) 8).
  by_evaluation.
Defined.

Lemma channel_sensor_fields_witness :
  ∃ i name, 1 ≤ i ≤ 4 ∧ "leak_ch3" = channel_key "leak_ch" i ∧
       plain_format "Leak Sensor CH{ch}" i = inr name ∧
       mkdict [("device_class", "moisture"); ("name", "Leak Sensor CH3")]
         !! "name" = Some name ∧
       ∀ fld, fld ≠ "name" →
         mkdict [("device_class", "moisture"); ("name", "Leak Sensor CH3")]
           !! fld
         = mkdict [("device_class", "moisture")] !! fld.
Proof.
  apply (channel_sensor_fields plain_format "leak_ch" "Leak Sensor CH{ch}"
           (mkdict [("device_class", "moisture")]) 4
           (default ∅ (returned (AnyFormat._generate_channel_sensors
                         plain_format "leak_ch" "Leak Sensor CH{ch}"
                         (mkdict [("device_class", "moisture")]) 4)))).
  - by_evaluation.
  - by_evaluation.
Defined.

Lemma channel_sensors_raises_witness :
  AnyFormat._generate_channel_sensors plain_format "tempf"
    "Temperature {channel}" ∅ 0 = inr ∅ ∧
  AnyFormat._generate_channel_sensors plain_format "tempf"
    "Temperature {channel}" ∅ 2 = inl ().
Proof.
  split.
  - apply (proj2 (proj2 (channel_sensors_raises plain_format "tempf"
                           "Temperature {channel}" ∅ 0))).
    lia.
  - apply (proj2 (proj1 (proj2 (channel_sensors_raises plain_format "tempf"
                                  "Temperature {channel}" ∅ 2)) ())).
    exists 1. split; [lia|]. split; [reflexivity|]. intros j Hj. lia.
Defined.

Lemma battery_sensors_exact_witness :
  size (default ∅ (returned (AnyFormat._generate_battery_sensors plain_format
          "batt" "Temperature/Humidity CH{ch} Battery" "temp{ch}f" 8)))
  = Z.to_nat 8.
Proof.
  apply (battery_sensors_exact plain_format "batt"
           "Temperature/Humidity CH{ch} Battery" "temp{ch}f" 8).
  by_evaluation.
Defined.

Lemma battery_sensors_raises_witness :
  AnyFormat._generate_battery_sensors plain_format "batt" "CH{ch} Battery"
    "temp{}f" (-1) = inr ∅ ∧
  AnyFormat._generate_battery_sensors plain_format "batt" "CH{ch} Battery"
    "temp{}f" 3 = inl ().
Proof.
  split.
  - apply (proj2 (proj2 (battery_sensors_raises plain_format "batt"
                           "CH{ch} Battery" "temp{}f" (-1)))).
    lia.
  - apply (proj2 (proj1 (proj2 (battery_sensors_raises plain_format "batt"
                                  "CH{ch} Battery" "temp{}f" 3)) ())).
    exists 1. split; [lia|]. split; [|intros j Hj; lia].
    right. split; [by eexists|reflexivity].
Defined.

Lemma updates_only_write_their_keys_witness :
  dom (sensor_types module_literals)
  ⊆ dom (sensor_types {| sensor_types := SENSOR_TYPES;
                         battery_sensors := BATTERY_SENSORS |}).
Proof.
  apply (updates_only_write_their_keys plain_format module_body
           module_literals
           {| sensor_types := SENSOR_TYPES;
              battery_sensors := BATTERY_SENSORS |}).
  by_evaluation.
Defined.

Lemma later_pass_overrides_witness :
  AnyFormat.exec plain_format
    [SENSOR_TYPES_update "tf_ch" "Soil Temperature CH{ch}"
       (mkdict [("unit", "°F"); ("device_class", "temperature")]) 8;
     SENSOR_TYPES_update "tf_ch" "Soil Temperature CH{ch}"
       (mkdict [("unit", "°C"); ("device_class", "temperature")]) 8]
    module_literals
  = AnyFormat.exec plain_format
      [SENSOR_TYPES_update "tf_ch" "Soil Temperature CH{ch}"
         (mkdict [("unit", "°C"); ("device_class", "temperature")]) 8]
      module_literals.
Proof.
  apply (later_pass_overrides plain_format "tf_ch" "Soil Temperature CH{ch}"
           "Soil Temperature CH{ch}"
           (mkdict [("unit", "°F"); ("device_class", "temperature")])
           (mkdict [("unit", "°C"); ("device_class", "temperature")]) 8
           (default ∅ (returned (AnyFormat._generate_channel_sensors
              plain_format "tf_ch" "Soil Temperature CH{ch}"
              (mkdict [("unit", "°F"); ("device_class", "temperature")]) 8)))
           module_literals).
  by_evaluation.
Defined.

Lemma disjoint_updates_commute_witness :
  AnyFormat.exec plain_format
    [SENSOR_TYPES_update "humidity" "Humidity CH{ch}"
       (mkdict [("unit", "%"); ("device_class", "humidity")]) 8;
     SENSOR_TYPES_update "tempf" "Temperature CH{ch}"
       (mkdict [("unit", "°C"); ("device_class", "temperature")]) 8]
    module_literals
  = inr (default module_literals (returned (AnyFormat.exec plain_format
      [SENSOR_TYPES_update "tempf" "Temperature CH{ch}"
         (mkdict [("unit", "°C"); ("device_class", "temperature")]) 8;
       SENSOR_TYPES_update "humidity" "Humidity CH{ch}"
         (mkdict [("unit", "%"); ("device_class", "humidity")]) 8]
      module_literals))).
Proof.
  apply (proj1 (disjoint_updates_commute plain_format
           (SENSOR_TYPES_update "tempf" "Temperature CH{ch}"
              (mkdict [("unit", "°C"); ("device_class", "temperature")]) 8)
           (SENSOR_TYPES_update "humidity" "Humidity CH{ch}"
              (mkdict [("unit", "%"); ("device_class", "humidity")]) 8)
           module_literals _)).
  - by_evaluation.
  - by_evaluation.
  - by_evaluation.
Defined.

Lemma import_needs_plain_fields_only_witness :
  AnyFormat.import_module plain_format
  = inr {| sensor_types := SENSOR_TYPES; battery_sensors := BATTERY_SENSORS |}.
Proof.
  apply (import_needs_plain_fields_only plain_format).
  intros tmpl i text H. unfold plain_format. by rewrite H.
Defined.

(** ** The key of a channel, for every base key *)

Lemma append_empty_r s : s +:+ "" = s.
Proof. induction s as [|c s IH]; [done|]. by rewrite append_cons, IH. Qed.

(** Property X11.  For every base key and every channel, the key of the
    channel is the base key with the decimal channel number put in, either
    at its end or just before its last character, and the second only when
    that character is an f: no character of the base key is lost or
    changed, and the key is longer than the base key by the length of the
    number. *)
Theorem channel_key_keeps_base (base_key : string) (i : Z) :
  (∃ p q, base_key = p +:+ q ∧ channel_key base_key i = p +:+ str i +:+ q ∧
          (q = "" ∨ q = "f")) ∧
  String.length (channel_key base_key i)
  = (String.length base_key + String.length (str i))%nat.
Proof.
  assert (∃ p q, base_key = p +:+ q ∧
                 channel_key base_key i = p +:+ str i +:+ q ∧
                 (q = "" ∨ q = "f")) as (p & q & Hb & Hk & Hq).
  { rewrite channel_key_drops_branches. unfold channel_key_two_tests.
    destruct (contains "_ch" base_key).
    - exists base_key, "". by rewrite !append_empty_r; auto.
    - destruct (endswith base_key "f") eqn:Hf; cbn.
      + apply endswith_spec in Hf as [p ->]. exists p, "f".
        by rewrite drop_last_spec; auto.
      + exists base_key, "". by rewrite !append_empty_r; auto. }
  split; [by exists p, q|].
  rewrite Hk, Hb, !length_append. lia.
Qed.

(** ** The battery families and their parents *)

Ltac template_is_key i :=
  unfold format; generalize (str i); intros ch; cbn;
  rewrite ?append_empty_r; reflexivity.

Ltac in_module_body :=
  unfold module_body;
  repeat first [apply list_elem_of_here | apply list_elem_of_further].

(** Property X12.  Every update of [BATTERY_SENSORS] in the module body has
    a parent among the updates of [SENSOR_TYPES]: a sensor family with at
    least as many channels whose key for a channel, for every integer
    channel, is what the battery family's [sensor_key] template formats to
    for that channel. *)
Theorem battery_families_have_parents
    (base_key name_template sensor_key_template : string) (max_channels : Z) :
  BATTERY_SENSORS_update base_key name_template sensor_key_template
    max_channels ∈ module_body →
  ∃ parent_key parent_template parent_def parent_channels,
    SENSOR_TYPES_update parent_key parent_template parent_def parent_channels
      ∈ module_body ∧
    max_channels ≤ parent_channels ∧
    ∀ i, format sensor_key_template i = Some (channel_key parent_key i).
Proof.
  intros H. unfold module_body in H.
  repeat (apply elem_of_cons in H as [H|H];
          [try discriminate H; injection H as -> -> -> ->|]);
    [..|by apply elem_of_nil in H].
  - exists "soilmoisture", "Soil Moisture CH{ch}",
      (mkdict [("unit", "%"); ("device_class", "moisture")]), 16.
    split; [in_module_body|split; [lia|intros i]].
    change (channel_key "soilmoisture" i) with ("soilmoisture" +:+ str i).
    template_is_key i.
  - exists "tempf", "Temperature CH{ch}",
      (mkdict [("unit", "°C"); ("device_class", "temperature")]), 8.
    split; [in_module_body|split; [lia|intros i]].
    change (channel_key "tempf" i) with ("temp" +:+ str i +:+ "f").
    template_is_key i.
  - exists "pm25_ch", "PM2.5 CH{ch}",
      (mkdict [("unit", "µg/m³"); ("device_class", "pm25")]), 4.
    split; [in_module_body|split; [lia|intros i]].
    change (channel_key "pm25_ch" i) with ("pm25_ch" +:+ str i).
    template_is_key i.
  - exists "leak_ch", "Leak Sensor CH{ch}",
      (mkdict [("device_class", "moisture")]), 4.
    split; [in_module_body|split; [lia|intros i]].
    change (channel_key "leak_ch" i) with ("leak_ch" +:+ str i).
    template_is_key i.
  - exists "tf_ch", "Soil Temperature CH{ch}",
      (mkdict [("unit", "°C"); ("device_class", "temperature")]), 8.
    split; [in_module_body|split; [lia|intros i]].
    change (channel_key "tf_ch" i) with ("tf_ch" +:+ str i).
    template_is_key i.
  - exists "leafwetness_ch", "Leaf Wetness CH{ch}",
      (mkdict [("unit", "%"); ("device_class", "moisture")]), 8.
    split; [in_module_body|split; [lia|intros i]].
    change (channel_key "leafwetness_ch" i) with ("leafwetness_ch" +:+ str i).
    template_is_key i.
Qed.

Lemma battery_families_have_parents_witness :
  ∃ parent_key parent_template parent_def parent_channels,
    SENSOR_TYPES_update parent_key parent_template parent_def parent_channels
      ∈ module_body ∧
    8 ≤ parent_channels ∧
    ∀ i, format "temp{ch}f" i = Some (channel_key parent_key i).
Proof.
  apply (battery_families_have_parents "batt"
           "Temperature/Humidity CH{ch} Battery" "temp{ch}f" 8).
  in_module_body.
Defined.

(** ** The assembled catalogs and the other tables *)

(** Property X13.  No update overwrites a pair of the two dict displays:
    every entry of the display of [SENSOR_TYPES] is, unchanged, an entry of
    the assembled sensor catalog, and every entry of the display of
    [BATTERY_SENSORS] is, unchanged, an entry of the assembled battery
    catalog. *)
Theorem display_entries_survive (k : string) (entry : gmap string string) :
  (mkdict SENSOR_TYPES_items !! k = Some entry →
   SENSOR_TYPES !! k = Some entry) ∧
  (mkdict BATTERY_SENSORS_items !! k = Some entry →
   BATTERY_SENSORS !! k = Some entry).
Proof.
  assert (map_Forall (λ k d, SENSOR_TYPES !! k = Some d)
            (mkdict SENSOR_TYPES_items)) as Hs by by_evaluation.
  assert (map_Forall (λ k d, BATTERY_SENSORS !! k = Some d)
            (mkdict BATTERY_SENSORS_items)) as Hb by by_evaluation.
  split; [exact (Hs k entry)|exact (Hb k entry)].
Qed.

Lemma display_entries_survive_witness :
  SENSOR_TYPES !! "tempf"
  = Some (mkdict [("name", "Outdoor Temperature"); ("unit", "°F");
                  ("device_class", "temperature")]).
Proof.
  apply (proj1 (display_entries_survive "tempf"
                  (mkdict [("name", "Outdoor Temperature"); ("unit", "°F");
                           ("device_class", "temperature")]))).
  by_evaluation.
Defined.

(** Property X14.  Every entry of the assembled sensor catalog has a name,
    has no field other than name, unit, device class, icon and state class,
    has a device class or an icon but not both, has a state class exactly
    when its device class is one of the two rain classes, and lacks a unit
    only when it is a timestamp or a moisture (leak) sensor.  Every entry of
    the assembled battery catalog has a name and a sensor key and nothing
    else. *)
Theorem catalog_entry_shapes (k : string) (entry : gmap string string) :
  (SENSOR_TYPES !! k = Some entry →
   is_Some (entry !! "name") ∧
   dom entry ⊆ {[ "name"; "unit"; "device_class"; "icon"; "state_class" ]} ∧
   (is_Some (entry !! "device_class") ↔ ¬ is_Some (entry !! "icon")) ∧
   (is_Some (entry !! "state_class") ↔
      entry !! "device_class" = Some "precipitation" ∨
      entry !! "device_class" = Some "precipitation_intensity") ∧
   (entry !! "unit" = None →
      entry !! "device_class" = Some "timestamp" ∨
      entry !! "device_class" = Some "moisture")) ∧
  (BATTERY_SENSORS !! k = Some entry →
   dom entry = {[ "name"; "sensor_key" ]}).
Proof.
  assert (map_Forall (λ (_ : string) (e : gmap string string),
     is_Some (e !! "name") ∧
     dom e ⊆ ({[ "name"; "unit"; "device_class"; "icon"; "state_class" ]}
              : gset string) ∧
     (is_Some (e !! "device_class") ↔ ¬ is_Some (e !! "icon")) ∧
     (is_Some (e !! "state_class") ↔
        e !! "device_class" = Some "precipitation" ∨
        e !! "device_class" = Some "precipitation_intensity") ∧
     (e !! "unit" = None →
        e !! "device_class" = Some "timestamp" ∨
        e !! "device_class" = Some "moisture")) SENSOR_TYPES)
    as Hs by by_evaluation.
  assert (map_Forall (λ (_ : string) (e : gmap string string),
     dom e = ({[ "name"; "sensor_key" ]} : gset string)) BATTERY_SENSORS)
    as Hb by by_evaluation.
  split; [exact (Hs k entry)|exact (Hb k entry)].
Qed.

Lemma catalog_entry_shapes_witness :
  dom (mkdict [("name", "WH69 Weather Station Battery");
               ("sensor_key", "0x02")])
  = ({[ "name"; "sensor_key" ]} : gset string).
Proof.
  apply (proj2 (catalog_entry_shapes "wh69batt"
                  (mkdict [("name", "WH69 Weather Station Battery");
                           ("sensor_key", "0x02")]))).
  by_evaluation.
Defined.

(** Property X15.  Every key of [GATEWAY_SENSORS] is a key of the assembled
    sensor catalog, where it holds the entry that the dict display gives it;
    it is written by no update statement and is not a battery key. *)
Theorem gateway_sensors_in_catalog (k : string) :
  k ∈ GATEWAY_SENSORS →
  is_Some (SENSOR_TYPES !! k) ∧
  SENSOR_TYPES !! k = mkdict SENSOR_TYPES_items !! k ∧
  (k ∉ module_body ≫= written_sensor_keys) ∧
  BATTERY_SENSORS !! k = None.
Proof.
  assert (set_Forall (λ k,
            is_Some (SENSOR_TYPES !! k) ∧
            SENSOR_TYPES !! k = mkdict SENSOR_TYPES_items !! k ∧
            (k ∉ module_body ≫= written_sensor_keys) ∧
            BATTERY_SENSORS !! k = None) GATEWAY_SENSORS)
    as H by by_evaluation.
  exact (H k).
Qed.

Lemma gateway_sensors_in_catalog_witness :
  is_Some (SENSOR_TYPES !! "3").
Proof.
  apply (gateway_sensors_in_catalog "3"). by_evaluation.
Defined.

(** Property X16.  The keys of [SYSTEM_SENSORS] are keys of neither
    assembled catalog, and no key of the sensor catalog, of the battery
    catalog or of [SYSTEM_SENSORS] begins with a prefix of [SIGNAL_SENSORS]:
    a key that begins with ["rssi_"] is in none of the three tables. *)
Theorem system_and_signal_keys_apart (k prefix : string) :
  dom SYSTEM_SENSORS ∩ (dom SENSOR_TYPES ∪ dom BATTERY_SENSORS) = ∅ ∧
  (prefix ∈ SIGNAL_SENSORS → String.prefix prefix k = true →
   SENSOR_TYPES !! k = None ∧ BATTERY_SENSORS !! k = None ∧
   SYSTEM_SENSORS !! k = None).
Proof.
  split; [by_evaluation|]. intros Hp Hk.
  assert (∀ m : gmap string (gmap string string),
            map_Forall (λ k _, Forall (λ p, String.prefix p k = false)
                                      SIGNAL_SENSORS) m →
            m !! k = None) as Hnone.
  { intros m Hm. destruct (m !! k) as [e|] eqn:He; [|done].
    pose proof (Hm k e He) as Hall. rewrite Forall_forall in Hall.
    rewrite (Hall prefix Hp) in Hk. discriminate Hk. }
  split; [|split]; apply Hnone; by_evaluation.
Qed.

Lemma system_and_signal_keys_apart_witness :
  SENSOR_TYPES !! "rssi_wh65" = None ∧ BATTERY_SENSORS !! "rssi_wh65" = None ∧
  SYSTEM_SENSORS !! "rssi_wh65" = None.
Proof.
  apply (proj2 (system_and_signal_keys_apart "rssi_wh65" "rssi_")).
  - apply list_elem_of_here.
  - reflexivity.
Defined.
